(** * Seeder service of the catch-up protocol

    A shallow embedding of [plenum/server/catchup/seeder_service.py]:
    the handlers for [LedgerStatus] and [CatchupReq] messages, the
    construction of consistency proofs and the splitter of oversized
    [CatchupRep] messages, together with the properties the
    specification states about them.

    Python integers are [Z]; the dictionary of registered ledgers is a
    [gmap Z]; exceptions are an error type threaded through a small
    state-and-exception monad whose state holds the service object and
    the messages handed to the provider's [send_to].  Calls to the
    logger have no influence on any result and are left out. *)

From stdpp Require Import base numbers list strings sorting gmap.

Set Default Proof Using "Type".
Local Open Scope Z_scope.

(** ** Exceptions *)

(** The exceptions the code can meet.  [ValueError] is the one raised by
    [_build_consistency_proof] and caught by [process_ledger_status];
    [KeyError] is a failed [dict[key]]; [IndexError] a failed [list[-1]].
    The message text of an exception is only ever logged. *)
Inductive exn : Type :=
  | ValueError
  | KeyError
  | IndexError
  | OtherError.

Inductive Result (A : Type) : Type :=
  | Ok (a : A)
  | Raise (e : exn).
Arguments Ok {A} a.
Arguments Raise {A} e.

Definition is_ok {A : Type} (r : Result A) : bool :=
  match r with Ok _ => true | Raise _ => false end.

Definition raises {A : Type} (e : exn) (r : Result A) : Prop := r = Raise e.

Definition rbind {A B : Type} (r : Result A) (f : A -> Result B) : Result B :=
  match r with
  | Ok a => f a
  | Raise e => Raise e
  end.

Declare Scope result_scope.
Delimit Scope result_scope with result.
Notation "'let?' x ':=' r 'in' k" := (rbind r (fun x => k))
  (at level 10, x name, r at level 100, k at level 200) : result_scope.

(** ** Python containers *)

(** A Python [dict] keeps its items in insertion order; assigning to a
    key that is present replaces the value where it stands. *)
Definition PyDict (V : Type) : Type := list (Z * V).

Fixpoint dict_set {V : Type} (k : Z) (v : V) (d : PyDict V) : PyDict V :=
  match d with
  | [] => [(k, v)]
  | (k', v') :: d' =>
      if k =? k' then (k, v) :: d' else (k', v') :: dict_set k v d'
  end.

(** Modelled from the spec: [plenum.common.util.SortedDict], the
    "ordered map keyed by SeqNo" of the message schema.  It is held as
    the list of its items in ascending key order; the constructor enters
    the given items one after the other, a later item replacing an
    earlier one under the same key. *)
Definition SortedDict (V : Type) : Type := list (Z * V).

Fixpoint sd_insert {V : Type} (k : Z) (v : V) (d : SortedDict V) : SortedDict V :=
  match d with
  | [] => [(k, v)]
  | (k', v') :: d' =>
      if k <? k' then (k, v) :: d
      else if k =? k' then (k, v) :: d'
      else (k', v') :: sd_insert k v d'
  end.

Definition mkSortedDict {V : Type} (items : list (Z * V)) : SortedDict V :=
  fold_left (fun acc kv => sd_insert kv.1 kv.2 acc) items [].

(** The keys of a well-formed [SortedDict] are strictly ascending. *)
Definition keys_ascending {V : Type} (d : list (Z * V)) : Prop :=
  StronglySorted Z.lt (d.*1).

(** [list[-1]]: the last element, [IndexError] on the empty list. *)
Definition py_last {A : Type} (l : list A) : Result A :=
  match last l with
  | Some x => Ok x
  | None => Raise IndexError
  end.

(** The largest sequence number among the items, if there is any item. *)
Fixpoint max_seq_no {V : Type} (d : list (Z * V)) : option Z :=
  match d with
  | [] => None
  | (k, _) :: d' =>
      Some (match max_seq_no d' with
            | None => k
            | Some k' => Z.max k k'
            end)
  end.

(** ** Messages *)

Module LedgerStatus.
Record t : Type := mk {
  ledgerId : Z;
  txnSeqNo : Z;
  viewNo : Z;
  ppSeqNo : Z;
  merkleRoot : string;
  protocolVersion : Z
}.
End LedgerStatus.

Module CatchupReq.
Record t : Type := mk {
  ledgerId : Z;
  seqNoStart : Z;
  seqNoEnd : Z;
  catchupTill : Z
}.
End CatchupReq.

Module CatchupRep.
Record t (Txn : Type) : Type := mk {
  ledgerId : Z;
  txns : SortedDict Txn;
  consProof : list string
}.
Arguments mk {Txn} _ _ _.
Arguments ledgerId {Txn} _.
Arguments txns {Txn} _.
Arguments consProof {Txn} _.
End CatchupRep.

Module ConsistencyProof.
Record t : Type := mk {
  ledgerId : Z;
  seqNoStart : Z;
  seqNoEnd : Z;
  viewNo : Z;
  ppSeqNo : Z;
  oldMerkleRoot : string;
  newMerkleRoot : string;
  hashes : list string
}.
End ConsistencyProof.

(** The messages that name a ledger: what [_get_ledger_and_id] reads
    from its argument, whatever its class. *)
Class HasLedgerId (R : Type) : Type := ledgerId_of : R -> Z.

#[global] Instance LedgerStatus_ledgerId : HasLedgerId LedgerStatus.t :=
  LedgerStatus.ledgerId.

#[global] Instance CatchupReq_ledgerId : HasLedgerId CatchupReq.t :=
  CatchupReq.ledgerId.

(** What a splitter handed to [send_to] answers: [None], a pair of
    messages, or an exception. *)
Definition Splitter (Txn : Type) : Type :=
  CatchupRep.t Txn -> Result (option (CatchupRep.t Txn * CatchupRep.t Txn)).

Inductive Message (Txn : Type) : Type :=
  | MsgLedgerStatus (m : LedgerStatus.t)
  | MsgConsistencyProof (m : ConsistencyProof.t)
  | MsgCatchupRep (m : CatchupRep.t Txn).
Arguments MsgLedgerStatus {Txn} m.
Arguments MsgConsistencyProof {Txn} m.
Arguments MsgCatchupRep {Txn} m.

(** The messages the transport delivers to the service. *)
Inductive Inbound : Type :=
  | InLedgerStatus (m : LedgerStatus.t)
  | InCatchupReq (m : CatchupReq.t).

(** One call of [send_to(message, destination, splitter)]. *)
Record Sent (Txn : Type) : Type := mkSent {
  sent_message : Message Txn;
  sent_to : string;
  sent_splitter : option (Splitter Txn)
}.
Arguments mkSent {Txn} _ _ _.
Arguments sent_message {Txn} _.
Arguments sent_to {Txn} _.
Arguments sent_splitter {Txn} _.

(** ** Collaborators *)

(** The Merkle tree of a ledger.  Its methods are not part of the
    service; they may raise. *)
Record MerkleTree (Hash : Type) : Type := mkTree {
  root_hash : Hash;
  merkle_tree_hash : Z -> Z -> Result Hash;
  consistency_proof : Z -> Z -> Result (list Hash)
}.
Arguments mkTree {Hash} _ _ _.
Arguments root_hash {Hash} _.
Arguments merkle_tree_hash {Hash} _ _ _.
Arguments consistency_proof {Hash} _ _ _.

(** A ledger as the service sees it: its size (a count), its tree and
    the iteration over a range of sequence numbers. *)
Record Ledger (Hash Txn : Type) : Type := mkLedger {
  ledger_len : N;
  tree : MerkleTree Hash;
  getAllTxn : Z -> Z -> list (Z * Txn)
}.
Arguments mkLedger {Hash Txn} _ _ _.
Arguments ledger_len {Hash Txn} _.
Arguments tree {Hash Txn} _.
Arguments getAllTxn {Hash Txn} _ _ _.

(** [ledger.size] *)
Definition size {Hash Txn : Type} (ledger : Ledger Hash Txn) : Z :=
  Z.of_N (ledger_len ledger).

(** The pure part of [CatchupDataProvider]; [send_to] is the effect of
    the monad below. *)
Record CatchupDataProvider (Txn : Type) : Type := mkProvider {
  node_name : string;
  update_txn_with_extra_data : Txn -> Txn;
  three_phase_key_for_txn_seq_no : Z -> Z -> option (Z * Z)
}.
Arguments mkProvider {Txn} _ _ _.
Arguments node_name {Txn} _.
Arguments update_txn_with_extra_data {Txn} _ _.
Arguments three_phase_key_for_txn_seq_no {Txn} _ _ _.

(** ** The service object and the handler monad *)

Record SeederService (Hash Txn : Type) : Type := mkSeeder {
  _provider : CatchupDataProvider Txn;
  _ledgers : gmap Z (Ledger Hash Txn);
  _echo_ledger_status_if_up_to_date : bool
}.
Arguments mkSeeder {Hash Txn} _ _ _.
Arguments _provider {Hash Txn} _.
Arguments _ledgers {Hash Txn} _.
Arguments _echo_ledger_status_if_up_to_date {Hash Txn} _.

(** The state a handler runs in: the service and the calls of
    [send_to] made so far, oldest first. *)
Record World (Hash Txn : Type) : Type := mkWorld {
  seeder : SeederService Hash Txn;
  outbox : list (Sent Txn)
}.
Arguments mkWorld {Hash Txn} _ _.
Arguments seeder {Hash Txn} _.
Arguments outbox {Hash Txn} _.

Section Handlers.

Variables Hash Txn : Type.

(** [Ledger.hashToStr], the wire form of a hash. *)
Variable hashToStr : Hash -> string.

(** [plenum.server.catchup.utils.build_ledger_status]: the service's
    own current status for a ledger. *)
Variable build_ledger_status :
  Z -> Ledger Hash Txn -> CatchupDataProvider Txn -> LedgerStatus.t.

(** A handler is a state transformer that may end in an exception;
    what was sent before the exception stays sent. *)
Definition M (A : Type) : Type :=
  World Hash Txn -> Result A * World Hash Txn.

Definition ret {A : Type} (a : A) : M A := fun w => (Ok a, w).

Definition bind {A B : Type} (m : M A) (f : A -> M B) : M B :=
  fun w =>
    match m w with
    | (Ok a, w') => f a w'
    | (Raise e, w') => (Raise e, w')
    end.

Definition lift {A : Type} (r : Result A) : M A := fun w => (r, w).

Definition self : M (SeederService Hash Txn) := fun w => (Ok (seeder w), w).

(** [try: body except ValueError: handler] *)
Definition try_except_ValueError (body handler : M unit) : M unit :=
  fun w =>
    match body w with
    | (Raise ValueError, w') => handler w'
    | other => other
    end.

(** [self._provider.send_to(message, destination, splitter)] *)
Definition send_to (message : Message Txn) (destination : string)
    (splitter : option (Splitter Txn)) : M unit :=
  fun w =>
    (Ok tt, mkWorld (seeder w) (outbox w ++ [mkSent message destination splitter])).

Notation "x <- m ;; k" := (bind m (fun x => k))
  (at level 100, m at next level, right associativity).

(** ** The service *)

Definition add_ledger (ledger_id : Z) (ledger : Ledger Hash Txn)
    (this : SeederService Hash Txn) : SeederService Hash Txn :=
  mkSeeder (_provider this) (<[ledger_id := ledger]> (_ledgers this))
           (_echo_ledger_status_if_up_to_date this).

Definition _get_ledger_and_id {R : Type} `{HasLedgerId R}
    (this : SeederService Hash Txn) (req : R) : Z * option (Ledger Hash Txn) :=
  let ledger_id := ledgerId_of req in
  (ledger_id, _ledgers this !! ledger_id).

Definition _make_consistency_proof (ledger : Ledger Hash Txn)
    (seq_no_start seq_no_end : Z) : Result (list string) :=
  (let? proof := consistency_proof (tree ledger) seq_no_start seq_no_end in
   Ok (hashToStr <$> proof))%result.

Definition _build_consistency_proof (this : SeederService Hash Txn)
    (ledger_id seq_no_start seq_no_end : Z) : Result ConsistencyProof.t :=
  (let? ledger :=
     match _ledgers this !! ledger_id with
     | Some ledger => Ok ledger
     | None => Raise KeyError
     end in
   if seq_no_end <? seq_no_start then Raise ValueError
   else if seq_no_start >? size ledger then Raise ValueError
   else if seq_no_end >? size ledger then Raise ValueError
   else
     let? old_root_and_proof :=
       if seq_no_start =? 0 then
         let old_root := hashToStr (root_hash (tree ledger)) in
         Ok (old_root, [old_root])
       else
         let? proof := _make_consistency_proof ledger seq_no_start seq_no_end in
         let? old_root := merkle_tree_hash (tree ledger) 0 seq_no_start in
         Ok (hashToStr old_root, proof) in
     let? new_root := merkle_tree_hash (tree ledger) 0 seq_no_end in
     let new_root := hashToStr new_root in
     let three_pc_key :=
       three_phase_key_for_txn_seq_no (_provider this) ledger_id seq_no_end in
     let '(view_no, pp_seq_no) := default (0, 0) three_pc_key in
     Ok (ConsistencyProof.mk ledger_id seq_no_start seq_no_end
           view_no pp_seq_no
           old_root_and_proof.1 new_root old_root_and_proof.2))%result.

Definition process_ledger_status (status : LedgerStatus.t) (frm : string)
    : M unit :=
  this <- self ;;
  let '(ledger_id, ledger) := _get_ledger_and_id this status in
  match ledger with
  | None => ret tt
  | Some ledger =>
      if LedgerStatus.txnSeqNo status <? 0 then ret tt
      else if LedgerStatus.txnSeqNo status >=? size ledger then
        if _echo_ledger_status_if_up_to_date this then
          let ledger_status :=
            build_ledger_status ledger_id ledger (_provider this) in
          send_to (MsgLedgerStatus ledger_status) frm None
        else ret tt
      else
        try_except_ValueError
          (cons_proof <-
             lift (_build_consistency_proof this ledger_id
                     (LedgerStatus.txnSeqNo status) (size ledger)) ;;
           send_to (MsgConsistencyProof cons_proof) frm None)
          (ret tt)
  end.

(** The closure [_split] that [_make_splitter_for_catchup_rep] returns,
    bound to [ledger] and [initial_seq_no]. *)
Definition _make_splitter_for_catchup_rep (ledger : Ledger Hash Txn)
    (initial_seq_no : Z) : Splitter Txn :=
  fun message =>
    let txns := CatchupRep.txns message in
    if (length (CatchupRep.txns message) <? 2)%nat then Ok None
    else
      let divider := (length (CatchupRep.txns message) / 2)%nat in
      let left := take divider txns in
      (let? left_last := py_last left in
       let left_last_seq_no := left_last.1 in
       let right := drop divider txns in
       let? right_last := py_last right in
       let right_last_seq_no := right_last.1 in
       let? left_cons_proof :=
         _make_consistency_proof ledger left_last_seq_no initial_seq_no in
       let? right_cons_proof :=
         _make_consistency_proof ledger right_last_seq_no initial_seq_no in
       let ledger_id := CatchupRep.ledgerId message in
       let left_rep :=
         CatchupRep.mk ledger_id (mkSortedDict left) left_cons_proof in
       let right_rep :=
         CatchupRep.mk ledger_id (mkSortedDict right) right_cons_proof in
       Ok (Some (left_rep, right_rep)))%result.

(** The loop that fills the dictionary [txns] from the iterator
    [ledger.getAllTxn(start, end)]. *)
Definition collect_txns (provider : CatchupDataProvider Txn)
    (pairs : list (Z * Txn)) : PyDict Txn :=
  fold_left
    (fun txns '(seq_no, txn) =>
       dict_set seq_no (update_txn_with_extra_data provider txn) txns)
    pairs [].

Definition process_catchup_req (req : CatchupReq.t) (frm : string) : M unit :=
  this <- self ;;
  let '(ledger_id, ledger) := _get_ledger_and_id this req in
  match ledger with
  | None => ret tt
  | Some ledger =>
      let start := CatchupReq.seqNoStart req in
      let end_ := CatchupReq.seqNoEnd req in
      if start >? end_ then ret tt
      else if end_ >? CatchupReq.catchupTill req then ret tt
      else if CatchupReq.catchupTill req >? size ledger then ret tt
      else
        cons_proof <-
          lift (consistency_proof (tree ledger) end_ (CatchupReq.catchupTill req)) ;;
        let cons_proof := hashToStr <$> cons_proof in
        let txns := collect_txns (_provider this) (getAllTxn ledger start end_) in
        let txns := mkSortedDict txns in
        let rep := CatchupRep.mk ledger_id txns cons_proof in
        let message_splitter :=
          _make_splitter_for_catchup_rep ledger (CatchupReq.catchupTill req) in
        send_to (MsgCatchupRep rep) frm (Some message_splitter)
  end.

(** The handlers installed on the input channel by [__init__], by
    message class. *)
Definition dispatch (message : Inbound) (frm : string) : M unit :=
  match message with
  | InLedgerStatus status => process_ledger_status status frm
  | InCatchupReq req => process_catchup_req req frm
  end.

(** The two variants differ in one flag; a new service has no ledger. *)
Definition ClientSeederService (provider : CatchupDataProvider Txn)
    : SeederService Hash Txn :=
  mkSeeder provider ∅ true.

Definition NodeSeederService (provider : CatchupDataProvider Txn)
    : SeederService Hash Txn :=
  mkSeeder provider ∅ false.

(** ** Vocabulary of the specification *)

(** The engine's contract: a request from [m] to [n] is in range
    unless [m > n] or [n > size], and on a request in range the engine
    answers, with the proof from [m] to [n] and with the root hash of
    the prefix [n]. *)
Definition engine_total (ledger : Ledger Hash Txn) : Prop :=
  forall m n : Z, m <= n -> n <= size ledger ->
    is_ok (consistency_proof (tree ledger) m n) = true /\
    is_ok (merkle_tree_hash (tree ledger) 0 n) = true.

(** The engine answers a proof request from every sequence number of
    the items to [initial_seq_no]. *)
Definition proofs_available (ledger : Ledger Hash Txn) (initial_seq_no : Z)
    (txns : list (Z * Txn)) : Prop :=
  Forall
    (fun kv =>
       is_ok (consistency_proof (tree ledger) kv.1 initial_seq_no) = true)
    txns.

(** The validation rules, as the specification lists them. *)
Definition fails_validation (this : SeederService Hash Txn)
    (message : Inbound) : Prop :=
  match message with
  | InLedgerStatus status =>
      _ledgers this !! LedgerStatus.ledgerId status = None \/
      LedgerStatus.txnSeqNo status < 0
  | InCatchupReq req =>
      match _ledgers this !! CatchupReq.ledgerId req with
      | None => True
      | Some ledger =>
          CatchupReq.seqNoStart req > CatchupReq.seqNoEnd req \/
          CatchupReq.seqNoEnd req > CatchupReq.catchupTill req \/
          CatchupReq.catchupTill req > size ledger
      end
  end.

(** The state after one more call of [send_to]. *)
Definition sends (w : World Hash Txn) (s : Sent Txn) : World Hash Txn :=
  mkWorld (seeder w) (outbox w ++ [s]).

End Handlers.

Arguments ret {Hash Txn A} a.
Arguments bind {Hash Txn A B} m f.
Arguments lift {Hash Txn A} r.
Arguments self {Hash Txn}.
Arguments try_except_ValueError {Hash Txn} body handler.
Arguments send_to {Hash Txn} message destination splitter.
Arguments add_ledger {Hash Txn} ledger_id ledger this.
Arguments _get_ledger_and_id {Hash Txn R _} this req.
Arguments _make_consistency_proof {Hash Txn} hashToStr ledger seq_no_start seq_no_end.
Arguments _build_consistency_proof {Hash Txn} hashToStr this ledger_id seq_no_start seq_no_end.
Arguments process_ledger_status {Hash Txn} hashToStr build_ledger_status status frm.
Arguments _make_splitter_for_catchup_rep {Hash Txn} hashToStr ledger initial_seq_no.
Arguments collect_txns {Txn} provider pairs.
Arguments process_catchup_req {Hash Txn} hashToStr req frm.
Arguments dispatch {Hash Txn} hashToStr build_ledger_status message frm.
Arguments ClientSeederService {Hash Txn} provider.
Arguments NodeSeederService {Hash Txn} provider.
Arguments engine_total {Hash Txn} ledger.
Arguments proofs_available {Hash Txn} ledger initial_seq_no txns.
Arguments fails_validation {Hash Txn} this message.
Arguments sends {Hash Txn} w s.

(** ** A concrete ledger

    A ledger of ten transactions over a toy tree whose hashes are byte
    lists, used to run the handlers on actual input. *)
Module Demo.

Definition Hash : Type := list N.
Definition Txn : Type := string.

Definition hex_digit (n : N) : string :=
  String.substring (N.to_nat n) 1 "0123456789abcdef".

(** Lowercase hexadecimal, two digits a byte. *)
Fixpoint hex (h : Hash) : string :=
  match h with
  | [] => EmptyString
  | b :: h' => (hex_digit (b / 16) +:+ hex_digit (b mod 16) +:+ hex h')%N
  end.

Definition digest (lo hi : Z) : Hash :=
  [Z.to_N (lo `mod` 256); Z.to_N (hi `mod` 256); 171%N].

(** A tree of [n] leaves that reports [m > n] and [n > size] as
    faults of a proof request and [n > size] as the fault of a prefix
    hash. *)
Definition tree_of (n : N) : MerkleTree Hash :=
  mkTree (digest 0 (Z.of_N n))
    (fun lo hi =>
       if hi <=? Z.of_N n then Ok (digest lo hi) else Raise ValueError)
    (fun m k =>
       if (m <=? k) && (k <=? Z.of_N n)
       then Ok (if m =? k then [] else [digest m k])
       else Raise ValueError).

(** A tree whose engine refuses every request. *)
Definition faulty_tree : MerkleTree Hash :=
  mkTree (digest 0 0) (fun _ _ => Raise ValueError) (fun _ _ => Raise ValueError).

Definition stored (i : Z) : Txn :=
  String.substring (Z.to_nat i) 1 "abcdefghijklmnopqrstuvwxyz".

Definition range (a b : Z) : list (Z * Txn) :=
  (fun i => (i, stored i)) <$> seqZ a (b - a + 1).

Definition ledger : Ledger Hash Txn := mkLedger 10 (tree_of 10) range.

Definition faulty_ledger : Ledger Hash Txn := mkLedger 10 faulty_tree range.

Definition provider : CatchupDataProvider Txn :=
  mkProvider "Alpha" (fun txn => txn +:+ "+")
    (fun _ seq_no => if seq_no =? 10 then Some (2, 7) else None).

Definition own_status (ledger_id : Z) (l : Ledger Hash Txn)
    (p : CatchupDataProvider Txn) : LedgerStatus.t :=
  let '(view_no, pp_seq_no) :=
    default (0, 0) (three_phase_key_for_txn_seq_no p ledger_id (size l)) in
  LedgerStatus.mk ledger_id (size l) view_no pp_seq_no
    (hex (root_hash (tree l))) 2.

Definition client : SeederService Hash Txn :=
  add_ledger 1 ledger (ClientSeederService provider).

Definition node : SeederService Hash Txn :=
  add_ledger 1 ledger (NodeSeederService provider).

Definition faulty_node : SeederService Hash Txn :=
  add_ledger 1 faulty_ledger (NodeSeederService provider).

Definition start_of (s : SeederService Hash Txn) : World Hash Txn :=
  mkWorld s [].

Definition status (ledger_id seq_no : Z) : LedgerStatus.t :=
  LedgerStatus.mk ledger_id seq_no 0 0 "" 2.

Definition rep_of (a b : Z) : CatchupRep.t Txn :=
  CatchupRep.mk 1 (range a b) [].

End Demo.

(** ** Request handler utilities

    [plenum/server/request_handlers/utils.py].  A Python [str] is held
    as the string of its bytes, so that [nym.encode()] is the nym
    itself; [bytes] are strings too. *)

(** What [domain_state_serializer.deserialize] can return, a JSON value
    (numbers are integers here); the items of an object come with
    distinct keys. *)
#[local] Unset Elimination Schemes.
Inductive pyval : Type :=
  | PyNone
  | PyBool (b : bool)
  | PyInt (n : Z)
  | PyStr (s : string)
  | PyList (items : list pyval)
  | PyObject (items : list (string * pyval)).
#[local] Set Elimination Schemes.

(** [bool(v)]: what [if not v] tests. *)
Definition truthy (v : pyval) : bool :=
  match v with
  | PyNone => false
  | PyBool b => b
  | PyInt n => negb (n =? 0)
  | PyStr s => negb (String.eqb s "")
  | PyList items => match items with [] => false | _ => true end
  | PyObject items => match items with [] => false | _ => true end
  end.

Fixpoint object_lookup (key : string) (items : list (string * pyval))
    : option pyval :=
  match items with
  | [] => None
  | (key', v) :: items' =>
      if String.eqb key key' then Some v else object_lookup key items'
  end.

(** [v.get(key)]: the value under the key or [None] for a [dict]; the
    other values have no [get] ([AttributeError], an [OtherError]
    here). *)
Definition py_get (v : pyval) (key : string) : Result pyval :=
  match v with
  | PyObject items => Ok (default PyNone (object_lookup key items))
  | _ => Raise OtherError
  end.

(** [v == s] for a [str] [s]. *)
Definition py_eq_str (v : pyval) (s : string) : bool :=
  match v with
  | PyStr s' => String.eqb s' s
  | _ => false
  end.

(** The state as the utilities see it: [state.get(key, is_committed)]. *)
Record State : Type := mkState {
  State_get : string -> bool -> option string
}.

Section RequestHandlerUtils.

(** [sha256(data).digest()] *)
Variable sha256_digest : string -> string.

(** [domain_state_serializer.deserialize]; it may raise. *)
Variable deserialize : string -> Result pyval.

(** The constants [STEWARD] and [ROLE] of [plenum.common.constants]. *)
Variables STEWARD ROLE : string.

Definition nym_to_state_key (nym : string) : string := sha256_digest nym.

Definition get_nym_details (state : State) (nym : string)
    (is_committed : bool) : Result pyval :=
  let key := nym_to_state_key nym in
  let data := State_get state key is_committed in
  match data with
  | None => Ok (PyObject [])
  | Some data =>
      if String.eqb data "" then Ok (PyObject []) else deserialize data
  end.

Definition get_role (state : State) (nym : string) (is_committed : bool)
    : Result pyval :=
  (let? nymData := get_nym_details state nym is_committed in
   if negb (truthy nymData) then Ok (PyObject [])
   else py_get nymData ROLE)%result.

Definition is_steward (state : State) (nym : string) (is_committed : bool)
    : Result bool :=
  (let? role := get_role state nym is_committed in
   Ok (py_eq_str role STEWARD))%result.

End RequestHandlerUtils.

(** A state that holds the record of one steward and of one user
    without a role, both committed, the record of a second steward not
    yet committed, a record that is a list and one that cannot be
    deserialized. *)
Module DemoState.

Definition digest (data : string) : string := "#" +:+ data.

Definition records : list (string * pyval) :=
  [("#steward1", PyObject [("verkey", PyStr "~A"); ("role", PyStr "2")]);
   ("#user1", PyObject [("verkey", PyStr "~B")]);
   ("#steward2", PyObject [("role", PyStr "2")]);
   ("#odd", PyList [PyInt 1])].

(** The serialized form of a record is its key here. *)
Definition deserialize (data : string) : Result pyval :=
  match object_lookup data records with
  | Some v => Ok v
  | None => Raise ValueError
  end.

Definition state : State :=
  mkState
    (fun key is_committed =>
       if String.eqb key "#steward1" || String.eqb key "#user1" then Some key
       else if String.eqb key "#odd" || String.eqb key "#garbled" then Some key
       else if String.eqb key "#steward2" && negb is_committed then Some key
       else if String.eqb key "#empty" then Some ""
       else None).

End DemoState.

(** A ledger whose tree fails with an exception that is no
    [ValueError]. *)
Module DemoFaults.

Definition broken_tree : MerkleTree Demo.Hash :=
  mkTree (Demo.digest 0 0) (fun _ _ => Raise KeyError) (fun _ _ => Raise KeyError).

Definition broken_ledger : Ledger Demo.Hash Demo.Txn :=
  mkLedger 10 broken_tree Demo.range.

Definition broken_node : SeederService Demo.Hash Demo.Txn :=
  add_ledger 1 broken_ledger (NodeSeederService Demo.provider).

(** A ledger that yields its pairs out of order and one of them
    twice. *)
Definition shuffled_ledger : Ledger Demo.Hash Demo.Txn :=
  mkLedger 10 (Demo.tree_of 10)
    (fun _ _ => [(6, "g"); (4, "e"); (5, "f"); (4, "E")]).

Definition shuffled_node : SeederService Demo.Hash Demo.Txn :=
  add_ledger 1 shuffled_ledger (NodeSeederService Demo.provider).

End DemoFaults.

(** ** Lemmas on the containers *)

Section Containers.

Context {V : Type}.
Implicit Types (d l : list (Z * V)) (k : Z) (v : V).

Lemma dict_set_fresh k v d :
  k ∉ d.*1 -> dict_set k v d = d ++ [(k, v)].
Proof.
  induction d as [|[k' v'] d IH]; simpl; intros Hk; [done|].
  apply not_elem_of_cons in Hk as [Hne Hk].
  destruct (Z.eqb_spec k k') as [->|_]; [done|].
  by rewrite IH.
Qed.

Lemma sd_insert_above k v d :
  Forall (fun kv => kv.1 < k) d -> sd_insert k v d = d ++ [(k, v)].
Proof.
  induction 1 as [|[k' v'] d Hlt _ IH]; simpl in *; [done|].
  destruct (Z.ltb_spec k k') as [?|_]; [lia|].
  destruct (Z.eqb_spec k k') as [?|_]; [lia|].
  by rewrite IH.
Qed.

Lemma sd_insert_nonempty k v d : sd_insert k v d <> [].
Proof.
  destruct d as [|[k' v'] d]; simpl; [done|].
  by repeat case_match.
Qed.

Lemma keys_ascending_app d l :
  keys_ascending (d ++ l) <->
    (forall kv kv', kv ∈ d -> kv' ∈ l -> kv.1 < kv'.1) /\
    keys_ascending d /\ keys_ascending l.
Proof.
  unfold keys_ascending. rewrite fmap_app, StronglySorted_app.
  split; intros (Hlt & ? & ?); split_and!; try done.
  - intros kv kv' ? ?. apply Hlt; by apply list_elem_of_fmap_2.
  - intros k k' (kv & -> & ?)%list_elem_of_fmap (kv' & -> & ?)%list_elem_of_fmap.
    by apply Hlt.
Qed.

Lemma keys_ascending_take n d : keys_ascending d -> keys_ascending (take n d).
Proof.
  intros H. rewrite <- (take_drop n d) in H.
  by apply keys_ascending_app in H as (_ & ? & _).
Qed.

Lemma keys_ascending_drop n d : keys_ascending d -> keys_ascending (drop n d).
Proof.
  intros H. rewrite <- (take_drop n d) in H.
  by apply keys_ascending_app in H as (_ & _ & ?).
Qed.

Lemma keys_ascending_NoDup d : keys_ascending d -> NoDup (d.*1).
Proof.
  unfold keys_ascending. induction 1 as [|k ks _ IH Hk]; constructor; [|done].
  intros Hin. rewrite Forall_forall in Hk. specialize (Hk _ Hin). lia.
Qed.

(** Entering ascending items into a [SortedDict] appends them. *)
Lemma fold_sd_insert_ascending l d :
  keys_ascending (d ++ l) ->
  fold_left (fun acc kv => sd_insert kv.1 kv.2 acc) l d = d ++ l.
Proof.
  revert d. induction l as [|[k v] l IH]; intros d Hs; simpl.
  - by rewrite app_nil_r.
  - rewrite sd_insert_above.
    + rewrite IH; rewrite <- (assoc_L (++)); done.
    + apply keys_ascending_app in Hs as (Hlt & _ & _).
      apply Forall_forall. intros kv Hkv.
      apply (Hlt kv (k, v)); [done|]. apply list_elem_of_here.
Qed.

Lemma mkSortedDict_ascending l : keys_ascending l -> mkSortedDict l = l.
Proof. intros H. unfold mkSortedDict. by rewrite fold_sd_insert_ascending. Qed.

Lemma mkSortedDict_nonempty l : l <> [] -> mkSortedDict l <> [].
Proof.
  unfold mkSortedDict. destruct l as [|kv l _] using rev_ind; [done|].
  intros _. rewrite fold_left_app. simpl. apply sd_insert_nonempty.
Qed.

(** In an ascending list the last key is the largest one. *)
Lemma max_seq_no_ascending d kv :
  keys_ascending d -> last d = Some kv -> max_seq_no d = Some kv.1.
Proof.
  unfold keys_ascending.
  induction d as [|[k v] d IH]; [done|]. simpl. intros Hs Hl.
  apply StronglySorted_cons in Hs as [Hk Hs].
  destruct d as [|kv' d].
  - simpl in *. by simplify_eq.
  - rewrite last_cons_cons in Hl. rewrite (IH Hs Hl).
    rewrite Forall_forall in Hk.
    assert (k < kv.1).
    { apply Hk. apply list_elem_of_fmap_2. by apply last_Some_elem_of. }
    f_equal. lia.
Qed.

End Containers.

(** ** Lemmas on the service *)

(** Decide the integer comparisons of the goal, closing the branches the
    context excludes. *)
Ltac decide_comparisons :=
  rewrite ?Z.gtb_ltb, ?Z.geb_leb;
  repeat match goal with
    | |- context [?a <? ?b] => destruct (Z.ltb_spec a b); try lia
    | |- context [?a <=? ?b] => destruct (Z.leb_spec a b); try lia
    | |- context [?a =? ?b] => destruct (Z.eqb_spec a b); try lia
    end.

Lemma is_ok_true {A : Type} (r : Result A) : is_ok r = true -> exists a, r = Ok a.
Proof. destruct r; [eauto | discriminate]. Qed.

Section Properties.

Variables Hash Txn : Type.
Variable hashToStr : Hash -> string.
Variable build_ledger_status :
  Z -> Ledger Hash Txn -> CatchupDataProvider Txn -> LedgerStatus.t.

Implicit Types (w : World Hash Txn) (this : SeederService Hash Txn).
Implicit Types (ledger : Ledger Hash Txn) (frm : string).
Implicit Types (provider : CatchupDataProvider Txn).

Lemma size_nonneg ledger : 0 <= size ledger.
Proof. unfold size. lia. Qed.

(** The loop of [process_catchup_req] over pairs with distinct keys
    keeps them in place and decorates each transaction. *)
Lemma collect_txns_fresh provider (pairs d : list (Z * Txn)) :
  NoDup (d.*1 ++ pairs.*1) ->
  fold_left
    (fun txns '(seq_no, txn) =>
       dict_set seq_no (update_txn_with_extra_data provider txn) txns)
    pairs d
  = d ++ (prod_map id (update_txn_with_extra_data provider) <$> pairs).
Proof.
  revert d. induction pairs as [|[k t] pairs IH]; intros d Hnd; simpl.
  - by rewrite app_nil_r.
  - simpl in Hnd. rewrite dict_set_fresh.
    + rewrite IH; [by rewrite <- (assoc_L (++))|].
      rewrite fmap_app. simpl. by rewrite <- (assoc_L (++)).
    + apply NoDup_app in Hnd as (_ & Hd & _). intros Hin.
      apply (Hd _ Hin). apply list_elem_of_here.
Qed.

Lemma collect_txns_ascending provider (pairs : list (Z * Txn)) :
  keys_ascending pairs ->
  collect_txns provider pairs
  = prod_map id (update_txn_with_extra_data provider) <$> pairs.
Proof.
  intros Hs. unfold collect_txns. rewrite collect_txns_fresh; [done|].
  simpl. by apply keys_ascending_NoDup.
Qed.

Lemma seqZ_ascending (m n : Z) : StronglySorted Z.lt (seqZ m n).
Proof.
  destruct (Z.le_gt_cases n 0) as [?|?]; [rewrite seqZ_nil by done; constructor|].
  rewrite <- (Z2Nat.id n) by lia. generalize (Z.to_nat n) as k. clear.
  induction k as [|k IH]; [constructor|].
  rewrite seqZ_S. apply StronglySorted_app. split_and!; [|done|repeat constructor].
  intros x y Hx ->%list_elem_of_singleton.
  apply elem_of_seqZ in Hx. lia.
Qed.

Lemma keys_of_range {A : Type} (f : Z -> A) (m n : Z) :
  ((fun i => (i, f i)) <$> seqZ m n).*1 = seqZ m n.
Proof. rewrite <- list_fmap_compose. apply list_fmap_id. Qed.

Lemma range_keys_ascending {A : Type} (f : Z -> A) (m n : Z) :
  keys_ascending ((fun i => (i, f i)) <$> seqZ m n).
Proof. unfold keys_ascending. rewrite keys_of_range. apply seqZ_ascending. Qed.

(** What [_build_consistency_proof] answers once its range checks are
    passed and the tree has answered. *)
Lemma _build_consistency_proof_passed this ledger_id ledger seq_no_start seq_no_end
    (new_root : Hash) :
  _ledgers this !! ledger_id = Some ledger ->
  seq_no_start <= seq_no_end -> seq_no_end <= size ledger ->
  merkle_tree_hash (tree ledger) 0 seq_no_end = Ok new_root ->
  (seq_no_start <> 0 ->
   is_ok (consistency_proof (tree ledger) seq_no_start seq_no_end) = true /\
   is_ok (merkle_tree_hash (tree ledger) 0 seq_no_start) = true) ->
  exists cons_proof,
    _build_consistency_proof hashToStr this ledger_id seq_no_start seq_no_end
      = Ok cons_proof /\
    ConsistencyProof.ledgerId cons_proof = ledger_id /\
    ConsistencyProof.seqNoStart cons_proof = seq_no_start /\
    ConsistencyProof.seqNoEnd cons_proof = seq_no_end /\
    ConsistencyProof.newMerkleRoot cons_proof = hashToStr new_root /\
    (seq_no_start = 0 ->
     ConsistencyProof.oldMerkleRoot cons_proof
       = hashToStr (root_hash (tree ledger)) /\
     ConsistencyProof.hashes cons_proof
       = [hashToStr (root_hash (tree ledger))]).
Proof.
  intros Hreg Hse Hes Hnew Hold.
  unfold _build_consistency_proof, _make_consistency_proof.
  rewrite Hreg. simpl. decide_comparisons.
  - simpl. rewrite Hnew. simpl.
    destruct (default (0, 0) _) as [view_no pp_seq_no].
    eexists. split; [done|]. simpl. by split_and!.
  - destruct (Hold ltac:(done)) as [(p & Hp)%is_ok_true (h & Hh)%is_ok_true].
    rewrite Hp, Hh. simpl. rewrite Hnew. simpl.
    destruct (default (0, 0) _) as [view_no pp_seq_no].
    eexists. split; [done|]. simpl. split_and!; done.
Qed.

(** Its three range checks, and nothing else in the function itself,
    raise [ValueError]. *)
Lemma _build_consistency_proof_rejects this ledger_id ledger seq_no_start seq_no_end :
  _ledgers this !! ledger_id = Some ledger ->
  seq_no_end < seq_no_start \/ seq_no_start > size ledger \/
    seq_no_end > size ledger ->
  _build_consistency_proof hashToStr this ledger_id seq_no_start seq_no_end
    = Raise ValueError.
Proof.
  intros Hreg Hc. unfold _build_consistency_proof. rewrite Hreg. simpl.
  decide_comparisons; done.
Qed.

Lemma _build_consistency_proof_total this ledger_id ledger seq_no_start seq_no_end :
  _ledgers this !! ledger_id = Some ledger ->
  engine_total ledger ->
  seq_no_start <= seq_no_end -> seq_no_end <= size ledger ->
  exists cons_proof new_root,
    merkle_tree_hash (tree ledger) 0 seq_no_end = Ok new_root /\
    _build_consistency_proof hashToStr this ledger_id seq_no_start seq_no_end
      = Ok cons_proof /\
    ConsistencyProof.ledgerId cons_proof = ledger_id /\
    ConsistencyProof.seqNoStart cons_proof = seq_no_start /\
    ConsistencyProof.seqNoEnd cons_proof = seq_no_end /\
    ConsistencyProof.newMerkleRoot cons_proof = hashToStr new_root /\
    (seq_no_start = 0 ->
     ConsistencyProof.oldMerkleRoot cons_proof
       = hashToStr (root_hash (tree ledger)) /\
     ConsistencyProof.hashes cons_proof
       = [hashToStr (root_hash (tree ledger))]).
Proof.
  intros Hreg Htot Hse Hes.
  destruct (Htot seq_no_start seq_no_end Hse Hes) as (Hp & (h & Hh)%is_ok_true).
  destruct (Htot seq_no_start seq_no_start) as (_ & Ho); [lia..|].
  destruct (_build_consistency_proof_passed this ledger_id ledger
              seq_no_start seq_no_end h Hreg Hse Hes Hh) as (cp & Hcp); [done|].
  by exists cp, h.
Qed.

(** The last branch of [process_ledger_status], by what the build
    answers. *)
Lemma process_ledger_status_behind w status frm ledger :
  _ledgers (seeder w) !! LedgerStatus.ledgerId status = Some ledger ->
  0 <= LedgerStatus.txnSeqNo status < size ledger ->
  process_ledger_status hashToStr build_ledger_status status frm w
  = match _build_consistency_proof hashToStr (seeder w)
            (LedgerStatus.ledgerId status) (LedgerStatus.txnSeqNo status)
            (size ledger) with
    | Ok cons_proof =>
        (Ok tt, sends w (mkSent (MsgConsistencyProof cons_proof) frm None))
    | Raise ValueError => (Ok tt, w)
    | Raise e => (Raise e, w)
    end.
Proof.
  intros Hreg Ht.
  unfold process_ledger_status, bind, self, _get_ledger_and_id,
    ledgerId_of, LedgerStatus_ledgerId. simpl.
  rewrite Hreg. decide_comparisons.
  unfold try_except_ValueError, bind, lift.
  destruct (_build_consistency_proof _ _ _ _ _) as [cp|[]]; done.
Qed.

(** What [_split] computes on a message of two or more transactions:
    both halves have a last item, and the rest is the two proof
    requests. *)
Lemma _split_two_or_more ledger (initial_seq_no : Z) (message : CatchupRep.t Txn) :
  let txns := CatchupRep.txns message in
  let divider := (length txns / 2)%nat in
  (2 <= length txns)%nat ->
  exists left_last right_last,
    last (take divider txns) = Some left_last /\
    last (drop divider txns) = Some right_last /\
    _make_splitter_for_catchup_rep hashToStr ledger initial_seq_no message
    = (let? left_cons_proof :=
         _make_consistency_proof hashToStr ledger left_last.1 initial_seq_no in
       let? right_cons_proof :=
         _make_consistency_proof hashToStr ledger right_last.1 initial_seq_no in
       Ok (Some
             (CatchupRep.mk (CatchupRep.ledgerId message)
                (mkSortedDict (take divider txns)) left_cons_proof,
              CatchupRep.mk (CatchupRep.ledgerId message)
                (mkSortedDict (drop divider txns)) right_cons_proof)))%result.
Proof.
  intros txns divider Hn.
  assert (Hd : (1 <= divider <= length txns - 1)%nat).
  { subst divider.
    pose proof (Nat.div_mod_eq (length txns) 2).
    pose proof (Nat.mod_upper_bound (length txns) 2). lia. }
  destruct (last (take divider txns)) as [left_last|] eqn:Hl; last first.
  { apply last_None in Hl. apply (f_equal length) in Hl.
    rewrite length_take_le in Hl by lia. simpl in Hl. lia. }
  destruct (last (drop divider txns)) as [right_last|] eqn:Hr; last first.
  { apply last_None in Hr. apply (f_equal length) in Hr.
    rewrite length_drop in Hr. simpl in Hr. lia. }
  exists left_last, right_last. split_and!; [done..|].
  unfold _make_splitter_for_catchup_rep, py_last. fold txns. fold divider.
  destruct (Nat.ltb_spec (length txns) 2) as [?|_]; [lia|].
  by rewrite Hl, Hr.
Qed.

Lemma proofs_available_last ledger initial_seq_no (txns : list (Z * Txn)) kv :
  proofs_available ledger initial_seq_no txns ->
  last txns = Some kv ->
  exists proof,
    consistency_proof (tree ledger) kv.1 initial_seq_no = Ok proof /\
    _make_consistency_proof hashToStr ledger kv.1 initial_seq_no
      = Ok (hashToStr <$> proof).
Proof.
  intros Hav Hl. apply last_Some_elem_of in Hl.
  unfold proofs_available in Hav. rewrite Forall_forall in Hav.
  destruct (is_ok_true _ (Hav _ Hl)) as [proof Hp].
  exists proof. split; [done|]. unfold _make_consistency_proof. by rewrite Hp.
Qed.

(** The engine's contract makes the proofs of a message available
    whenever its sequence numbers do not exceed a target within the
    ledger. *)
Lemma engine_total_proofs_available ledger initial_seq_no (txns : list (Z * Txn)) :
  engine_total ledger ->
  initial_seq_no <= size ledger ->
  Forall (fun kv => kv.1 <= initial_seq_no) txns ->
  proofs_available ledger initial_seq_no txns.
Proof.
  intros Htot HT Hle. unfold proofs_available.
  eapply Forall_impl; [exact Hle|]. simpl.
  intros kv Hkv. by destruct (Htot kv.1 initial_seq_no Hkv HT) as (? & _).
Qed.

(** The whole of [_split] on a well-formed message of two or more
    transactions whose proofs are available. *)
Lemma _split_ascending ledger (initial_seq_no : Z) (message : CatchupRep.t Txn) :
  let txns := CatchupRep.txns message in
  let divider := (length txns / 2)%nat in
  (2 <= length txns)%nat ->
  keys_ascending txns ->
  proofs_available ledger initial_seq_no txns ->
  exists left_last right_last left_proof right_proof,
    last (take divider txns) = Some left_last /\
    last (drop divider txns) = Some right_last /\
    consistency_proof (tree ledger) left_last.1 initial_seq_no = Ok left_proof /\
    consistency_proof (tree ledger) right_last.1 initial_seq_no = Ok right_proof /\
    _make_splitter_for_catchup_rep hashToStr ledger initial_seq_no message
    = Ok (Some
            (CatchupRep.mk (CatchupRep.ledgerId message)
               (take divider txns) (hashToStr <$> left_proof),
             CatchupRep.mk (CatchupRep.ledgerId message)
               (drop divider txns) (hashToStr <$> right_proof))).
Proof.
  intros txns divider Hn Hs Hav.
  destruct (_split_two_or_more ledger initial_seq_no message Hn)
    as (left_last & right_last & Hl & Hr & Hsplit).
  fold txns in Hl, Hr, Hsplit. fold divider in Hl, Hr, Hsplit.
  assert (Hin : forall kv, last (take divider txns) = Some kv \/
                           last (drop divider txns) = Some kv ->
                           last [kv] = Some kv /\ kv ∈ txns).
  { intros kv [H|H]; apply last_Some_elem_of in H; split; try done;
      rewrite <- (take_drop divider txns); apply elem_of_app; auto. }
  destruct (proofs_available_last ledger initial_seq_no [left_last] left_last)
    as (left_proof & Hlp & Hlm).
  { constructor; [|constructor]. unfold proofs_available in Hav.
    rewrite Forall_forall in Hav. apply Hav, Hin. by left. }
  { done. }
  destruct (proofs_available_last ledger initial_seq_no [right_last] right_last)
    as (right_proof & Hrp & Hrm).
  { constructor; [|constructor]. unfold proofs_available in Hav.
    rewrite Forall_forall in Hav. apply Hav, Hin. by right. }
  { done. }
  exists left_last, right_last, left_proof, right_proof.
  split_and!; [done..|].
  rewrite Hsplit, Hlm, Hrm. simpl.
  rewrite !mkSortedDict_ascending;
    [done | by apply keys_ascending_drop | by apply keys_ascending_take].
Qed.

(** ** The handler of [LedgerStatus] *)

(** C1: a [LedgerStatus] for a registered ledger whose [txnSeqNo] is
    at least 0 and below the ledger's size makes
    [process_ledger_status] send exactly one message to the sender, a
    [ConsistencyProof] with [seqNoStart = txnSeqNo] and
    [seqNoEnd = ledger.size]; the tree is assumed to keep its
    contract. *)
Theorem process_ledger_status_sends_consistency_proof w status frm ledger :
  _ledgers (seeder w) !! LedgerStatus.ledgerId status = Some ledger ->
  0 <= LedgerStatus.txnSeqNo status < size ledger ->
  engine_total ledger ->
  exists cons_proof,
    process_ledger_status hashToStr build_ledger_status status frm w
      = (Ok tt, sends w (mkSent (MsgConsistencyProof cons_proof) frm None)) /\
    ConsistencyProof.ledgerId cons_proof = LedgerStatus.ledgerId status /\
    ConsistencyProof.seqNoStart cons_proof = LedgerStatus.txnSeqNo status /\
    ConsistencyProof.seqNoEnd cons_proof = size ledger.
Proof.
  intros Hreg Ht Htot.
  destruct (_build_consistency_proof_total (seeder w)
              (LedgerStatus.ledgerId status) ledger
              (LedgerStatus.txnSeqNo status) (size ledger) Hreg Htot)
    as (cons_proof & new_root & _ & Hb & Hid & Hstart & Hend & _); [lia..|].
  exists cons_proof.
  rewrite (process_ledger_status_behind w status frm ledger Hreg Ht), Hb.
  done.
Qed.

(** C3: a message that fails a validation rule is dropped: the
    handler returns without a call of [send_to] and the state is the
    one it started from. *)
Theorem invalid_message_is_dropped w message frm :
  fails_validation (seeder w) message ->
  dispatch hashToStr build_ledger_status message frm w = (Ok tt, w).
Proof.
  destruct message as [status|req]; simpl.
  - unfold process_ledger_status, bind, self, _get_ledger_and_id,
    ledgerId_of, LedgerStatus_ledgerId. simpl.
    intros [Hreg|Hneg].
    + by rewrite Hreg.
    + destruct (_ledgers (seeder w) !! _); [|done].
      by decide_comparisons.
  - unfold process_catchup_req, bind, self, _get_ledger_and_id,
    ledgerId_of, CatchupReq_ledgerId. simpl.
    destruct (_ledgers (seeder w) !! _) as [ledger|]; [|done].
    intros Hc. decide_comparisons; done.
Qed.

(** C6: a [ConsistencyProof] built from [seqNoStart = 0] carries the
    tree's current root hash as [oldMerkleRoot], that same string as
    the single element of [hashes], and the hash of the prefix
    [seqNoEnd] as [newMerkleRoot]; a [LedgerStatus] with
    [txnSeqNo = 0] on a non-empty ledger is answered with such a
    proof, whose old root is the new one when the current root is the
    hash of the whole ledger. *)
Theorem consistency_proof_from_zero :
  (forall this ledger_id ledger seq_no_end (new_root : Hash),
     _ledgers this !! ledger_id = Some ledger ->
     0 <= seq_no_end <= size ledger ->
     merkle_tree_hash (tree ledger) 0 seq_no_end = Ok new_root ->
     exists cons_proof,
       _build_consistency_proof hashToStr this ledger_id 0 seq_no_end
         = Ok cons_proof /\
       ConsistencyProof.oldMerkleRoot cons_proof
         = hashToStr (root_hash (tree ledger)) /\
       ConsistencyProof.hashes cons_proof
         = [ConsistencyProof.oldMerkleRoot cons_proof] /\
       ConsistencyProof.newMerkleRoot cons_proof = hashToStr new_root) /\
  (forall w status frm ledger (new_root : Hash),
     _ledgers (seeder w) !! LedgerStatus.ledgerId status = Some ledger ->
     LedgerStatus.txnSeqNo status = 0 ->
     0 < size ledger ->
     merkle_tree_hash (tree ledger) 0 (size ledger) = Ok new_root ->
     exists cons_proof,
       process_ledger_status hashToStr build_ledger_status status frm w
         = (Ok tt, sends w (mkSent (MsgConsistencyProof cons_proof) frm None)) /\
       ConsistencyProof.oldMerkleRoot cons_proof
         = hashToStr (root_hash (tree ledger)) /\
       ConsistencyProof.hashes cons_proof
         = [ConsistencyProof.oldMerkleRoot cons_proof] /\
       ConsistencyProof.newMerkleRoot cons_proof = hashToStr new_root /\
       (new_root = root_hash (tree ledger) ->
        ConsistencyProof.oldMerkleRoot cons_proof
          = ConsistencyProof.newMerkleRoot cons_proof)).
Proof.
  split.
  - intros this ledger_id ledger seq_no_end new_root Hreg He Hnew.
    destruct (_build_consistency_proof_passed this ledger_id ledger 0
                seq_no_end new_root Hreg) as (cp & Hb & _ & _ & _ & Hn & Hz);
      [lia | lia | done | done |].
    destruct (Hz eq_refl) as [Ho Hh].
    exists cp. by rewrite Hh, Ho.
  - intros w status frm ledger new_root Hreg Hzero Hpos Hnew.
    destruct (_build_consistency_proof_passed (seeder w)
                (LedgerStatus.ledgerId status) ledger 0
                (size ledger) new_root Hreg) as (cp & Hb & _ & _ & _ & Hn & Hz);
      [lia | lia | done | done |].
    destruct (Hz eq_refl) as [Ho Hh].
    exists cp.
    rewrite (process_ledger_status_behind w status frm ledger Hreg) by lia.
    rewrite Hzero, Hb, Hh, Ho, Hn. split_and!; try done. by intros ->.
Qed.

(** C7: a [LedgerStatus] on a registered ledger with
    [txnSeqNo >= ledger.size] is answered by exactly one message, the
    service's own status of that ledger, when the service echoes, and
    by nothing when it does not; [ClientSeederService] echoes and
    [NodeSeederService] does not, whatever ledgers are added. *)
Theorem up_to_date_status_is_echoed_by_clients_only :
  (forall w status frm ledger,
     _ledgers (seeder w) !! LedgerStatus.ledgerId status = Some ledger ->
     LedgerStatus.txnSeqNo status >= size ledger ->
     process_ledger_status hashToStr build_ledger_status status frm w
     = (Ok tt,
        if _echo_ledger_status_if_up_to_date (seeder w) then
          sends w
            (mkSent
               (MsgLedgerStatus
                  (build_ledger_status (LedgerStatus.ledgerId status) ledger
                     (_provider (seeder w))))
               frm None)
        else w)) /\
  (forall provider,
     _echo_ledger_status_if_up_to_date
       (ClientSeederService provider : SeederService Hash Txn) = true /\
     _echo_ledger_status_if_up_to_date
       (NodeSeederService provider : SeederService Hash Txn) = false) /\
  (forall ledger_id ledger this,
     _echo_ledger_status_if_up_to_date (add_ledger ledger_id ledger this)
     = _echo_ledger_status_if_up_to_date this).
Proof.
  split_and!; [|done..].
  intros w status frm ledger Hreg Ht. pose proof (size_nonneg ledger).
  unfold process_ledger_status, bind, self, _get_ledger_and_id,
    ledgerId_of, LedgerStatus_ledgerId. simpl.
  rewrite Hreg. decide_comparisons.
  by destruct (_echo_ledger_status_if_up_to_date (seeder w)).
Qed.

(** C8: for a registered ledger and a tree that keeps its contract,
    [_build_consistency_proof] raises [ValueError] exactly when
    [seq_no_end < seq_no_start], [seq_no_start > ledger.size] or
    [seq_no_end > ledger.size]; and when the build made by
    [process_ledger_status] raises [ValueError], the handler returns
    normally and has sent nothing. *)
Theorem value_error_of_build_is_caught :
  (forall this ledger_id ledger seq_no_start seq_no_end,
     _ledgers this !! ledger_id = Some ledger ->
     engine_total ledger ->
     raises ValueError
       (_build_consistency_proof hashToStr this ledger_id seq_no_start seq_no_end)
     <-> seq_no_end < seq_no_start \/ seq_no_start > size ledger \/
         seq_no_end > size ledger) /\
  (forall w status frm ledger,
     _ledgers (seeder w) !! LedgerStatus.ledgerId status = Some ledger ->
     0 <= LedgerStatus.txnSeqNo status < size ledger ->
     raises ValueError
       (_build_consistency_proof hashToStr (seeder w)
          (LedgerStatus.ledgerId status) (LedgerStatus.txnSeqNo status)
          (size ledger)) ->
     process_ledger_status hashToStr build_ledger_status status frm w
     = (Ok tt, w)).
Proof.
  unfold raises. split.
  - intros this ledger_id ledger seq_no_start seq_no_end Hreg Htot. split.
    + intros Hr.
      destruct (Z.lt_ge_cases seq_no_end seq_no_start); [by left|].
      destruct (Z.lt_ge_cases (size ledger) seq_no_end); [right; right; lia|].
      destruct (_build_consistency_proof_total this ledger_id ledger
                  seq_no_start seq_no_end Hreg Htot)
        as (cp & h & _ & Hb & _); [lia..|].
      congruence.
    + by apply _build_consistency_proof_rejects.
  - intros w status frm ledger Hreg Ht Hr.
    by rewrite (process_ledger_status_behind w status frm ledger Hreg Ht), Hr.
Qed.

(** ** The handler of [CatchupReq] *)

(** A request that passes the validation is answered with one
    [CatchupRep], provided the tree answers the proof request. *)
Lemma process_catchup_req_valid w req frm ledger (proof : list Hash) :
  _ledgers (seeder w) !! CatchupReq.ledgerId req = Some ledger ->
  CatchupReq.seqNoStart req <= CatchupReq.seqNoEnd req ->
  CatchupReq.seqNoEnd req <= CatchupReq.catchupTill req ->
  CatchupReq.catchupTill req <= size ledger ->
  consistency_proof (tree ledger) (CatchupReq.seqNoEnd req)
    (CatchupReq.catchupTill req) = Ok proof ->
  process_catchup_req hashToStr req frm w
  = (Ok tt,
     sends w
       (mkSent
          (MsgCatchupRep
             (CatchupRep.mk (CatchupReq.ledgerId req)
                (mkSortedDict
                   (collect_txns (_provider (seeder w))
                      (getAllTxn ledger (CatchupReq.seqNoStart req)
                         (CatchupReq.seqNoEnd req))))
                (hashToStr <$> proof)))
          frm
          (Some (_make_splitter_for_catchup_rep hashToStr ledger
                   (CatchupReq.catchupTill req))))).
Proof.
  intros Hreg Hse Het Hts Hp.
  unfold process_catchup_req, bind, self, _get_ledger_and_id, lift,
    ledgerId_of, CatchupReq_ledgerId. simpl.
  rewrite Hreg. decide_comparisons. by rewrite Hp.
Qed.

(** C2: a [CatchupReq(ledgerId, a, b, T)] that passes the validation,
    on a ledger whose [getAllTxn(a, b)] yields the pairs [(i, txn_i)]
    for [i] from [a] to [b] in ascending order, is answered by exactly
    one [CatchupRep] with the same [ledgerId]; its [txns] are the
    pairs [(i, update_txn_with_extra_data(txn_i))] for [i] from [a] to
    [b], [b - a + 1] of them with keys ascending, and its [consProof]
    is the serialization of [tree.consistency_proof(b, T)]. *)
Theorem valid_catchup_req_is_answered w req frm ledger
    (stored : Z -> Txn) (proof : list Hash) :
  let a := CatchupReq.seqNoStart req in
  let b := CatchupReq.seqNoEnd req in
  let T := CatchupReq.catchupTill req in
  _ledgers (seeder w) !! CatchupReq.ledgerId req = Some ledger ->
  a <= b -> b <= T -> T <= size ledger ->
  getAllTxn ledger a b = (fun i => (i, stored i)) <$> seqZ a (b - a + 1) ->
  consistency_proof (tree ledger) b T = Ok proof ->
  exists rep,
    process_catchup_req hashToStr req frm w
      = (Ok tt,
         sends w
           (mkSent (MsgCatchupRep rep) frm
              (Some (_make_splitter_for_catchup_rep hashToStr ledger T)))) /\
    CatchupRep.ledgerId rep = CatchupReq.ledgerId req /\
    CatchupRep.txns rep
      = (fun i =>
           (i, update_txn_with_extra_data (_provider (seeder w)) (stored i)))
        <$> seqZ a (b - a + 1) /\
    (CatchupRep.txns rep).*1 = seqZ a (b - a + 1) /\
    Z.of_nat (length (CatchupRep.txns rep)) = b - a + 1 /\
    keys_ascending (CatchupRep.txns rep) /\
    CatchupRep.consProof rep = hashToStr <$> proof.
Proof.
  intros a b T Hreg Hab HbT HT Hall Hp.
  eexists. split.
  { apply (process_catchup_req_valid w req frm ledger proof); done. }
  simpl. fold a b. rewrite Hall.
  assert (Hasc : forall f : Z -> Txn,
             keys_ascending ((fun i => (i, f i)) <$> seqZ a (b - a + 1)))
    by (intros f; apply range_keys_ascending).
  rewrite collect_txns_ascending by apply Hasc.
  rewrite <- list_fmap_compose.
  change (prod_map id (update_txn_with_extra_data (_provider (seeder w)))
            ∘ (fun i => (i, stored i)))
    with (fun i => (i, update_txn_with_extra_data (_provider (seeder w)) (stored i))).
  rewrite mkSortedDict_ascending by apply Hasc.
  split_and!; try done.
  - apply keys_of_range.
  - rewrite length_fmap, length_seqZ. lia.
Qed.

(** C9: the validation of a [CatchupReq] does not ask for
    [seqNoStart >= 1]: a request from 0 on a registered ledger with
    [0 <= seqNoEnd <= catchupTill <= ledger.size] is not dropped; the
    handler reads [ledger.getAllTxn(0, seqNoEnd)] and sends one
    [CatchupRep] made of it (the tree keeping its contract). *)
Theorem catchup_req_from_zero_is_answered w req frm ledger :
  _ledgers (seeder w) !! CatchupReq.ledgerId req = Some ledger ->
  CatchupReq.seqNoStart req = 0 ->
  0 <= CatchupReq.seqNoEnd req ->
  CatchupReq.seqNoEnd req <= CatchupReq.catchupTill req ->
  CatchupReq.catchupTill req <= size ledger ->
  engine_total ledger ->
  ~ fails_validation (seeder w) (InCatchupReq req) /\
  exists proof,
    consistency_proof (tree ledger) (CatchupReq.seqNoEnd req)
      (CatchupReq.catchupTill req) = Ok proof /\
    process_catchup_req hashToStr req frm w
    = (Ok tt,
       sends w
         (mkSent
            (MsgCatchupRep
               (CatchupRep.mk (CatchupReq.ledgerId req)
                  (mkSortedDict
                     (collect_txns (_provider (seeder w))
                        (getAllTxn ledger 0 (CatchupReq.seqNoEnd req))))
                  (hashToStr <$> proof)))
            frm
            (Some (_make_splitter_for_catchup_rep hashToStr ledger
                     (CatchupReq.catchupTill req))))).
Proof.
  intros Hreg Hzero He Het Hts Htot. split.
  { simpl. rewrite Hreg. lia. }
  destruct (Htot (CatchupReq.seqNoEnd req) (CatchupReq.catchupTill req) Het Hts)
    as ((proof & Hp)%is_ok_true & _).
  exists proof. split; [done|].
  rewrite <- Hzero.
  apply (process_catchup_req_valid w req frm ledger proof); try done. lia.
Qed.

(** ** The splitter *)

(** C4: the splitter bound to a ledger and a target answers a
    [CatchupRep] of [n >= 2] transactions with ascending keys by a
    pair whose left message holds the first [n / 2] items and whose
    right message holds the other [n - n / 2]; the two, one after the
    other, are the original [txns], and both carry the original
    [ledgerId] (the tree answering the proof requests).  A message of
    fewer than 2 transactions is answered by [None]. *)
Theorem splitter_halves_the_transactions ledger (initial_seq_no : Z)
    (message : CatchupRep.t Txn) :
  ((2 <= length (CatchupRep.txns message))%nat ->
   keys_ascending (CatchupRep.txns message) ->
   proofs_available ledger initial_seq_no (CatchupRep.txns message) ->
   exists left_rep right_rep,
     _make_splitter_for_catchup_rep hashToStr ledger initial_seq_no message
       = Ok (Some (left_rep, right_rep)) /\
     CatchupRep.txns left_rep
       = take (length (CatchupRep.txns message) / 2) (CatchupRep.txns message) /\
     CatchupRep.txns right_rep
       = drop (length (CatchupRep.txns message) / 2) (CatchupRep.txns message) /\
     length (CatchupRep.txns left_rep)
       = (length (CatchupRep.txns message) / 2)%nat /\
     length (CatchupRep.txns right_rep)
       = (length (CatchupRep.txns message)
          - length (CatchupRep.txns message) / 2)%nat /\
     CatchupRep.txns left_rep ++ CatchupRep.txns right_rep
       = CatchupRep.txns message /\
     CatchupRep.ledgerId left_rep = CatchupRep.ledgerId message /\
     CatchupRep.ledgerId right_rep = CatchupRep.ledgerId message) /\
  ((length (CatchupRep.txns message) < 2)%nat ->
   _make_splitter_for_catchup_rep hashToStr ledger initial_seq_no message
     = Ok None).
Proof.
  split.
  - intros Hn Hs Hav.
    destruct (_split_ascending ledger initial_seq_no message Hn Hs Hav)
      as (ll & rl & lp & rp & _ & _ & _ & _ & Hsplit).
    eexists _, _. split; [exact Hsplit|].
    cbn [CatchupRep.txns CatchupRep.ledgerId].
    pose proof (Nat.div_mod_eq (length (CatchupRep.txns message)) 2).
    pose proof (Nat.mod_upper_bound (length (CatchupRep.txns message)) 2).
    split_and!; try done.
    + rewrite length_take_le; lia.
    + by rewrite length_drop.
    + apply take_drop.
  - intros Hn. unfold _make_splitter_for_catchup_rep.
    by destruct (Nat.ltb_spec (length (CatchupRep.txns message)) 2); [|lia].
Qed.

(** C5: each half the splitter returns for a [CatchupRep] of at least
    2 transactions carries as [consProof] the serialization of
    [tree.consistency_proof(lastSeqNo, T)], computed by this call,
    where [lastSeqNo] is the largest sequence number in that half and
    [T] the target the splitter is bound to. *)
Theorem splitter_proves_each_half_anew ledger (initial_seq_no : Z)
    (message : CatchupRep.t Txn) :
  (2 <= length (CatchupRep.txns message))%nat ->
  keys_ascending (CatchupRep.txns message) ->
  proofs_available ledger initial_seq_no (CatchupRep.txns message) ->
  exists left_rep right_rep left_last_seq_no right_last_seq_no
         left_proof right_proof,
    _make_splitter_for_catchup_rep hashToStr ledger initial_seq_no message
      = Ok (Some (left_rep, right_rep)) /\
    max_seq_no (CatchupRep.txns left_rep) = Some left_last_seq_no /\
    consistency_proof (tree ledger) left_last_seq_no initial_seq_no
      = Ok left_proof /\
    CatchupRep.consProof left_rep = hashToStr <$> left_proof /\
    max_seq_no (CatchupRep.txns right_rep) = Some right_last_seq_no /\
    consistency_proof (tree ledger) right_last_seq_no initial_seq_no
      = Ok right_proof /\
    CatchupRep.consProof right_rep = hashToStr <$> right_proof.
Proof.
  intros Hn Hs Hav.
  destruct (_split_ascending ledger initial_seq_no message Hn Hs Hav)
    as (ll & rl & lp & rp & Hl & Hr & Hlp & Hrp & Hsplit).
  eexists _, _, ll.1, rl.1, lp, rp. split; [exact Hsplit|].
  cbn [CatchupRep.txns CatchupRep.consProof].
  split_and!; try done.
  - apply max_seq_no_ascending; [by apply keys_ascending_take | done].
  - apply max_seq_no_ascending; [by apply keys_ascending_drop | done].
Qed.

(** C10: on a [CatchupRep] of [n >= 2] transactions the divider
    [n / 2] leaves at least one item on either side, so [left[-1]] and
    [right[-1]] are there; every pair the splitter returns has two
    non-empty maps, of [n / 2] and [n - n / 2] entries when the keys
    arrive ascending, and the splitter does return a pair when the
    tree answers its two proof requests. *)
Theorem splitter_halves_are_not_empty ledger (initial_seq_no : Z)
    (message : CatchupRep.t Txn) :
  let txns := CatchupRep.txns message in
  let n := length txns in
  (2 <= n)%nat ->
  (1 <= n / 2)%nat /\ (1 <= n - n / 2)%nat /\
  is_ok (py_last (take (n / 2) txns)) = true /\
  is_ok (py_last (drop (n / 2) txns)) = true /\
  (forall left_rep right_rep,
     _make_splitter_for_catchup_rep hashToStr ledger initial_seq_no message
       = Ok (Some (left_rep, right_rep)) ->
     CatchupRep.txns left_rep <> [] /\ CatchupRep.txns right_rep <> [] /\
     (keys_ascending txns ->
      length (CatchupRep.txns left_rep) = (n / 2)%nat /\
      length (CatchupRep.txns right_rep) = (n - n / 2)%nat)) /\
  (proofs_available ledger initial_seq_no txns ->
   exists left_rep right_rep,
     _make_splitter_for_catchup_rep hashToStr ledger initial_seq_no message
       = Ok (Some (left_rep, right_rep))).
Proof.
  intros txns n Hn.
  pose proof (Nat.div_mod_eq n 2) as Hdm.
  pose proof (Nat.mod_upper_bound n 2) as Hmu.
  destruct (_split_two_or_more ledger initial_seq_no message Hn)
    as (ll & rl & Hl & Hr & Hsplit).
  fold txns in Hl, Hr, Hsplit. fold n in Hl, Hr, Hsplit.
  split_and!; [lia | lia | unfold py_last; by rewrite Hl
              | unfold py_last; by rewrite Hr | |].
  - intros left_rep right_rep. rewrite Hsplit.
    destruct (_make_consistency_proof hashToStr ledger ll.1 initial_seq_no)
      as [lp|]; [|done].
    destruct (_make_consistency_proof hashToStr ledger rl.1 initial_seq_no)
      as [rp|]; [|done].
    cbn [rbind]. intros [= <- <-]. cbn [CatchupRep.txns].
    assert (take (n / 2) txns <> []) by (intros E; by rewrite E in Hl).
    assert (drop (n / 2) txns <> []) by (intros E; by rewrite E in Hr).
    split_and!; [by apply mkSortedDict_nonempty..|].
    intros Hs.
    rewrite !mkSortedDict_ascending;
      [| by apply keys_ascending_drop | by apply keys_ascending_take].
    change (Nat.divmod n 1 0 1).1 with (n / 2)%nat.
    rewrite length_take_le by (unfold n in *; lia). by rewrite length_drop.
  - intros Hav. rewrite Hsplit.
    assert (Hin : forall kv, last (take (n / 2) txns) = Some kv \/
                             last (drop (n / 2) txns) = Some kv -> kv ∈ txns).
    { intros kv [H|H]; apply last_Some_elem_of in H;
        rewrite <- (take_drop (n / 2) txns); apply elem_of_app; auto. }
    unfold proofs_available in Hav. rewrite Forall_forall in Hav.
    unfold _make_consistency_proof.
    destruct (is_ok_true _ (Hav ll (Hin ll (or_introl Hl)))) as [lp ->].
    destruct (is_ok_true _ (Hav rl (Hin rl (or_intror Hr)))) as [rp ->].
    cbn [rbind]. eauto.
Qed.

End Properties.

(** ** The properties on the concrete ledger *)

Lemma demo_registered (s : SeederService Demo.Hash Demo.Txn) l :
  _ledgers (add_ledger 1 l s) !! 1 = Some l.
Proof. apply lookup_insert_eq. Qed.

Lemma demo_unregistered provider :
  _ledgers (add_ledger 1 Demo.ledger (NodeSeederService provider)) !! 2
  = @None (Ledger Demo.Hash Demo.Txn).
Proof. unfold add_ledger. simpl. by rewrite lookup_insert_ne, lookup_empty. Qed.

Lemma demo_engine_total : engine_total Demo.ledger.
Proof.
  intros m n Hmn Hn. change (size Demo.ledger) with 10 in Hn. simpl.
  split_and!; decide_comparisons; done.
Qed.

Lemma demo_range_ascending a b : keys_ascending (Demo.range a b).
Proof. apply range_keys_ascending. Qed.

Lemma demo_proofs_available a b :
  b <= 10 -> proofs_available Demo.ledger 10 (Demo.range a b).
Proof.
  intros Hb. apply engine_total_proofs_available;
    [apply demo_engine_total | done |].
  apply Forall_forall. intros kv (i & -> & Hi%elem_of_seqZ)%list_elem_of_fmap.
  simpl. lia.
Qed.

Lemma process_ledger_status_sends_consistency_proof_witness :
  _ledgers Demo.node !! 1 = Some Demo.ledger /\
  (0 <= 3 < size Demo.ledger) /\
  engine_total Demo.ledger /\
  exists cons_proof,
    process_ledger_status Demo.hex Demo.own_status (Demo.status 1 3) "Beta"
      (Demo.start_of Demo.node)
      = (Ok tt,
         sends (Demo.start_of Demo.node)
           (mkSent (MsgConsistencyProof cons_proof) "Beta" None)) /\
    ConsistencyProof.ledgerId cons_proof = 1 /\
    ConsistencyProof.seqNoStart cons_proof = 3 /\
    ConsistencyProof.seqNoEnd cons_proof = 10.
Proof.
  assert (Hreg : _ledgers Demo.node !! 1 = Some Demo.ledger)
    by apply demo_registered.
  assert (Ht : 0 <= 3 < size Demo.ledger) by (vm_compute; intuition discriminate).
  split; [exact Hreg|]. split; [exact Ht|]. split; [exact demo_engine_total|].
  exact (process_ledger_status_sends_consistency_proof _ _ Demo.hex
           Demo.own_status (Demo.start_of Demo.node) (Demo.status 1 3) "Beta"
           Demo.ledger Hreg Ht demo_engine_total).
Defined.

Lemma invalid_message_is_dropped_witness :
  fails_validation Demo.node (InCatchupReq (CatchupReq.mk 1 7 5 10)) /\
  dispatch Demo.hex Demo.own_status (InCatchupReq (CatchupReq.mk 1 7 5 10))
    "Beta" (Demo.start_of Demo.node)
  = (Ok tt, Demo.start_of Demo.node).
Proof.
  assert (Hf : fails_validation Demo.node (InCatchupReq (CatchupReq.mk 1 7 5 10))).
  { unfold fails_validation, Demo.node.
    cbn [CatchupReq.ledgerId CatchupReq.seqNoStart CatchupReq.seqNoEnd].
    rewrite demo_registered. left. reflexivity. }
  split; [exact Hf|].
  exact (invalid_message_is_dropped _ _ Demo.hex Demo.own_status
           (Demo.start_of Demo.node) (InCatchupReq (CatchupReq.mk 1 7 5 10))
           "Beta" Hf).
Defined.

Lemma consistency_proof_from_zero_witness :
  (exists cons_proof,
     _build_consistency_proof Demo.hex Demo.node 1 0 4 = Ok cons_proof /\
     ConsistencyProof.oldMerkleRoot cons_proof = "000aab" /\
     ConsistencyProof.hashes cons_proof
       = [ConsistencyProof.oldMerkleRoot cons_proof] /\
     ConsistencyProof.newMerkleRoot cons_proof = "0004ab") /\
  (exists cons_proof,
     process_ledger_status Demo.hex Demo.own_status (Demo.status 1 0) "Beta"
       (Demo.start_of Demo.node)
       = (Ok tt,
          sends (Demo.start_of Demo.node)
            (mkSent (MsgConsistencyProof cons_proof) "Beta" None)) /\
     ConsistencyProof.oldMerkleRoot cons_proof = "000aab" /\
     ConsistencyProof.hashes cons_proof
       = [ConsistencyProof.oldMerkleRoot cons_proof] /\
     ConsistencyProof.newMerkleRoot cons_proof = "000aab" /\
     (Demo.digest 0 10 = root_hash (tree Demo.ledger) ->
      ConsistencyProof.oldMerkleRoot cons_proof
        = ConsistencyProof.newMerkleRoot cons_proof)).
Proof.
  split.
  - refine (proj1 (consistency_proof_from_zero _ _ Demo.hex Demo.own_status)
              Demo.node 1 Demo.ledger 4 (Demo.digest 0 4) _ _ _).
    + apply demo_registered.
    + vm_compute. intuition discriminate.
    + reflexivity.
  - refine (proj2 (consistency_proof_from_zero _ _ Demo.hex Demo.own_status)
              (Demo.start_of Demo.node) (Demo.status 1 0) "Beta" Demo.ledger
              (Demo.digest 0 10) _ _ _ _).
    + apply demo_registered.
    + reflexivity.
    + reflexivity.
    + reflexivity.
Defined.

Lemma up_to_date_status_is_echoed_by_clients_only_witness :
  process_ledger_status Demo.hex Demo.own_status (Demo.status 1 10) "Beta"
    (Demo.start_of Demo.client)
  = (Ok tt,
     sends (Demo.start_of Demo.client)
       (mkSent (MsgLedgerStatus (LedgerStatus.mk 1 10 2 7 "000aab" 2))
          "Beta" None)) /\
  process_ledger_status Demo.hex Demo.own_status (Demo.status 1 10) "Beta"
    (Demo.start_of Demo.node)
  = (Ok tt, Demo.start_of Demo.node).
Proof.
  split.
  - refine (proj1 (up_to_date_status_is_echoed_by_clients_only _ _ Demo.hex
                     Demo.own_status)
              (Demo.start_of Demo.client) (Demo.status 1 10) "Beta"
              Demo.ledger _ _).
    + apply demo_registered.
    + vm_compute. discriminate.
  - refine (proj1 (up_to_date_status_is_echoed_by_clients_only _ _ Demo.hex
                     Demo.own_status)
              (Demo.start_of Demo.node) (Demo.status 1 10) "Beta"
              Demo.ledger _ _).
    + apply demo_registered.
    + vm_compute. discriminate.
Defined.

Lemma value_error_of_build_is_caught_witness :
  (raises ValueError (_build_consistency_proof Demo.hex Demo.node 1 5 4) <->
   4 < 5 \/ 5 > size Demo.ledger \/ 4 > size Demo.ledger) /\
  (raises ValueError (_build_consistency_proof Demo.hex Demo.node 1 4 5) <->
   5 < 4 \/ 4 > size Demo.ledger \/ 5 > size Demo.ledger) /\
  raises ValueError
    (_build_consistency_proof Demo.hex Demo.faulty_node 1 3
       (size Demo.faulty_ledger)) /\
  process_ledger_status Demo.hex Demo.own_status (Demo.status 1 3) "Beta"
    (Demo.start_of Demo.faulty_node)
  = (Ok tt, Demo.start_of Demo.faulty_node).
Proof.
  split; [|split; [|split]].
  - exact (proj1 (value_error_of_build_is_caught _ _ Demo.hex Demo.own_status)
             Demo.node 1 Demo.ledger 5 4 (demo_registered _ _) demo_engine_total).
  - exact (proj1 (value_error_of_build_is_caught _ _ Demo.hex Demo.own_status)
             Demo.node 1 Demo.ledger 4 5 (demo_registered _ _) demo_engine_total).
  - reflexivity.
  - refine (proj2 (value_error_of_build_is_caught _ _ Demo.hex Demo.own_status)
              (Demo.start_of Demo.faulty_node) (Demo.status 1 3) "Beta"
              Demo.faulty_ledger _ _ _).
    + apply demo_registered.
    + vm_compute. intuition discriminate.
    + reflexivity.
Defined.

Lemma valid_catchup_req_is_answered_witness :
  _ledgers Demo.node !! 1 = Some Demo.ledger /\
  4 <= 6 /\ 6 <= 10 /\ 10 <= size Demo.ledger /\
  getAllTxn Demo.ledger 4 6
    = (fun i => (i, Demo.stored i)) <$> seqZ 4 (6 - 4 + 1) /\
  consistency_proof (tree Demo.ledger) 6 10 = Ok [Demo.digest 6 10] /\
  exists rep,
    process_catchup_req Demo.hex (CatchupReq.mk 1 4 6 10) "Beta"
      (Demo.start_of Demo.node)
      = (Ok tt,
         sends (Demo.start_of Demo.node)
           (mkSent (MsgCatchupRep rep) "Beta"
              (Some (_make_splitter_for_catchup_rep Demo.hex Demo.ledger 10)))) /\
    CatchupRep.ledgerId rep = 1 /\
    CatchupRep.txns rep = [(4, "e+"); (5, "f+"); (6, "g+")] /\
    CatchupRep.consProof rep = ["060aab"].
Proof.
  assert (Hreg : _ledgers Demo.node !! 1 = Some Demo.ledger)
    by apply demo_registered.
  assert (Hab : 4 <= 6) by lia.
  assert (HbT : 6 <= 10) by lia.
  assert (HT : 10 <= size Demo.ledger) by (vm_compute; discriminate).
  assert (Hall : getAllTxn Demo.ledger 4 6
                 = (fun i => (i, Demo.stored i)) <$> seqZ 4 (6 - 4 + 1))
    by reflexivity.
  assert (Hp : consistency_proof (tree Demo.ledger) 6 10 = Ok [Demo.digest 6 10])
    by reflexivity.
  do 6 (split; [assumption|]).
  destruct (valid_catchup_req_is_answered _ _ Demo.hex (Demo.start_of Demo.node)
              (CatchupReq.mk 1 4 6 10) "Beta" Demo.ledger Demo.stored
              [Demo.digest 6 10] Hreg Hab HbT HT Hall Hp)
    as (rep & Hsent & Hid & Htxns & _ & _ & _ & Hproof).
  exists rep. split; [exact Hsent|]. split; [exact Hid|].
  split; [exact Htxns | exact Hproof].
Defined.

Lemma catchup_req_from_zero_is_answered_witness :
  _ledgers Demo.node !! 1 = Some Demo.ledger /\
  0 <= 6 /\ 6 <= 10 /\ 10 <= size Demo.ledger /\
  engine_total Demo.ledger /\
  ~ fails_validation Demo.node (InCatchupReq (CatchupReq.mk 1 0 6 10)) /\
  exists proof,
    consistency_proof (tree Demo.ledger) 6 10 = Ok proof /\
    process_catchup_req Demo.hex (CatchupReq.mk 1 0 6 10) "Beta"
      (Demo.start_of Demo.node)
    = (Ok tt,
       sends (Demo.start_of Demo.node)
         (mkSent
            (MsgCatchupRep
               (CatchupRep.mk 1
                  (mkSortedDict
                     (collect_txns Demo.provider (getAllTxn Demo.ledger 0 6)))
                  (Demo.hex <$> proof)))
            "Beta"
            (Some (_make_splitter_for_catchup_rep Demo.hex Demo.ledger 10)))).
Proof.
  assert (Hreg : _ledgers Demo.node !! 1 = Some Demo.ledger)
    by apply demo_registered.
  assert (He : 0 <= 6) by lia.
  assert (Het : 6 <= 10) by lia.
  assert (Hts : 10 <= size Demo.ledger) by (vm_compute; discriminate).
  do 4 (split; [assumption|]). split; [exact demo_engine_total|].
  exact (catchup_req_from_zero_is_answered _ _ Demo.hex
           (Demo.start_of Demo.node) (CatchupReq.mk 1 0 6 10) "Beta"
           Demo.ledger Hreg eq_refl He Het Hts demo_engine_total).
Defined.

Lemma splitter_halves_the_transactions_witness :
  (2 <= length (Demo.range 1 10))%nat /\
  keys_ascending (Demo.range 1 10) /\
  proofs_available Demo.ledger 10 (Demo.range 1 10) /\
  (exists left_rep right_rep,
     _make_splitter_for_catchup_rep Demo.hex Demo.ledger 10 (Demo.rep_of 1 10)
       = Ok (Some (left_rep, right_rep)) /\
     CatchupRep.txns left_rep = Demo.range 1 5 /\
     CatchupRep.txns right_rep = Demo.range 6 10 /\
     CatchupRep.ledgerId left_rep = 1 /\
     CatchupRep.ledgerId right_rep = 1) /\
  (length (Demo.range 4 4) < 2)%nat /\
  _make_splitter_for_catchup_rep Demo.hex Demo.ledger 10 (Demo.rep_of 4 4)
    = Ok None.
Proof.
  assert (Hn : (2 <= length (Demo.range 1 10))%nat) by (vm_compute; lia).
  assert (Hs : keys_ascending (Demo.range 1 10)) by apply demo_range_ascending.
  assert (Hav : proofs_available Demo.ledger 10 (Demo.range 1 10))
    by (apply demo_proofs_available; lia).
  assert (Hone : (length (Demo.range 4 4) < 2)%nat) by (vm_compute; lia).
  do 3 (split; [assumption|]). split; [|split; [exact Hone|]].
  - destruct (proj1 (splitter_halves_the_transactions _ _ Demo.hex Demo.ledger 10
                       (Demo.rep_of 1 10)) Hn Hs Hav)
      as (left_rep & right_rep & Hsplit & Hl & Hr & _ & _ & _ & Hlid & Hrid).
    exists left_rep, right_rep.
    split; [exact Hsplit|]. split; [exact Hl|]. split; [exact Hr|].
    split; [exact Hlid | exact Hrid].
  - exact (proj2 (splitter_halves_the_transactions _ _ Demo.hex Demo.ledger 10
                    (Demo.rep_of 4 4)) Hone).
Defined.

Lemma splitter_proves_each_half_anew_witness :
  (2 <= length (Demo.range 1 10))%nat /\
  keys_ascending (Demo.range 1 10) /\
  proofs_available Demo.ledger 10 (Demo.range 1 10) /\
  exists left_rep right_rep left_last_seq_no right_last_seq_no
         left_proof right_proof,
    _make_splitter_for_catchup_rep Demo.hex Demo.ledger 10 (Demo.rep_of 1 10)
      = Ok (Some (left_rep, right_rep)) /\
    max_seq_no (CatchupRep.txns left_rep) = Some left_last_seq_no /\
    consistency_proof (tree Demo.ledger) left_last_seq_no 10 = Ok left_proof /\
    CatchupRep.consProof left_rep = Demo.hex <$> left_proof /\
    max_seq_no (CatchupRep.txns right_rep) = Some right_last_seq_no /\
    consistency_proof (tree Demo.ledger) right_last_seq_no 10 = Ok right_proof /\
    CatchupRep.consProof right_rep = Demo.hex <$> right_proof.
Proof.
  assert (Hn : (2 <= length (Demo.range 1 10))%nat) by (vm_compute; lia).
  assert (Hs : keys_ascending (Demo.range 1 10)) by apply demo_range_ascending.
  assert (Hav : proofs_available Demo.ledger 10 (Demo.range 1 10))
    by (apply demo_proofs_available; lia).
  do 3 (split; [assumption|]).
  exact (splitter_proves_each_half_anew _ _ Demo.hex Demo.ledger 10
           (Demo.rep_of 1 10) Hn Hs Hav).
Defined.

Lemma splitter_halves_are_not_empty_witness :
  (2 <= length (Demo.range 1 3))%nat /\
  is_ok (py_last (take 1 (Demo.range 1 3))) = true /\
  is_ok (py_last (drop 1 (Demo.range 1 3))) = true /\
  exists left_rep right_rep,
    _make_splitter_for_catchup_rep Demo.hex Demo.ledger 10 (Demo.rep_of 1 3)
      = Ok (Some (left_rep, right_rep)) /\
    length (CatchupRep.txns left_rep) = 1%nat /\
    length (CatchupRep.txns right_rep) = 2%nat.
Proof.
  assert (Hn : (2 <= length (Demo.range 1 3))%nat) by (vm_compute; lia).
  split; [exact Hn|].
  destruct (splitter_halves_are_not_empty _ _ Demo.hex Demo.ledger 10
              (Demo.rep_of 1 3) Hn)
    as (_ & _ & Hl & Hr & Hne & Hret).
  split; [exact Hl|]. split; [exact Hr|].
  destruct (Hret (demo_proofs_available 1 3 ltac:(lia)))
    as (left_rep & right_rep & Hsplit).
  exists left_rep, right_rep. split; [exact Hsplit|].
  destruct (Hne left_rep right_rep Hsplit) as (_ & _ & Hlen).
  exact (Hlen (demo_range_ascending 1 3)).
Defined.

(** ** Further properties of the handlers *)

Section HandlerProperties.

Variables Hash Txn : Type.
Variable hashToStr : Hash -> string.
Variable build_ledger_status :
  Z -> Ledger Hash Txn -> CatchupDataProvider Txn -> LedgerStatus.t.

Implicit Types (w : World Hash Txn) (this : SeederService Hash Txn).
Implicit Types (ledger : Ledger Hash Txn) (frm : string).

(** [process_ledger_status], branch by branch. *)
Lemma process_ledger_status_cases w status frm :
  process_ledger_status hashToStr build_ledger_status status frm w
  = match _ledgers (seeder w) !! LedgerStatus.ledgerId status with
    | None => (Ok tt, w)
    | Some ledger =>
        if LedgerStatus.txnSeqNo status <? 0 then (Ok tt, w)
        else if size ledger <=? LedgerStatus.txnSeqNo status then
          (Ok tt,
           if _echo_ledger_status_if_up_to_date (seeder w) then
             sends w
               (mkSent
                  (MsgLedgerStatus
                     (build_ledger_status (LedgerStatus.ledgerId status)
                        ledger (_provider (seeder w))))
                  frm None)
           else w)
        else
          match _build_consistency_proof hashToStr (seeder w)
                  (LedgerStatus.ledgerId status)
                  (LedgerStatus.txnSeqNo status) (size ledger) with
          | Ok cons_proof =>
              (Ok tt, sends w (mkSent (MsgConsistencyProof cons_proof) frm None))
          | Raise ValueError => (Ok tt, w)
          | Raise e => (Raise e, w)
          end
    end.
Proof.
  unfold process_ledger_status, bind, self, _get_ledger_and_id,
    ledgerId_of, LedgerStatus_ledgerId. simpl.
  destruct (_ledgers (seeder w) !! LedgerStatus.ledgerId status)
    as [ledger|]; [|done].
  rewrite Z.geb_leb.
  destruct (LedgerStatus.txnSeqNo status <? 0); [done|].
  destruct (size ledger <=? LedgerStatus.txnSeqNo status).
  { by destruct (_echo_ledger_status_if_up_to_date (seeder w)). }
  unfold try_except_ValueError, bind, lift.
  destruct (_build_consistency_proof _ _ _ _ _) as [cp|[]]; done.
Qed.

(** [process_catchup_req], branch by branch. *)
Lemma process_catchup_req_cases w req frm :
  process_catchup_req hashToStr req frm w
  = match _ledgers (seeder w) !! CatchupReq.ledgerId req with
    | None => (Ok tt, w)
    | Some ledger =>
        if (CatchupReq.seqNoEnd req <? CatchupReq.seqNoStart req)
           || (CatchupReq.catchupTill req <? CatchupReq.seqNoEnd req)
           || (size ledger <? CatchupReq.catchupTill req)
        then (Ok tt, w)
        else
          match consistency_proof (tree ledger) (CatchupReq.seqNoEnd req)
                  (CatchupReq.catchupTill req) with
          | Ok proof =>
              (Ok tt,
               sends w
                 (mkSent
                    (MsgCatchupRep
                       (CatchupRep.mk (CatchupReq.ledgerId req)
                          (mkSortedDict
                             (collect_txns (_provider (seeder w))
                                (getAllTxn ledger (CatchupReq.seqNoStart req)
                                   (CatchupReq.seqNoEnd req))))
                          (hashToStr <$> proof)))
                    frm
                    (Some (_make_splitter_for_catchup_rep hashToStr ledger
                             (CatchupReq.catchupTill req)))))
          | Raise e => (Raise e, w)
          end
    end.
Proof.
  unfold process_catchup_req, bind, self, _get_ledger_and_id, lift,
    ledgerId_of, CatchupReq_ledgerId. simpl.
  destruct (_ledgers (seeder w) !! CatchupReq.ledgerId req) as [ledger|]; [|done].
  rewrite !Z.gtb_ltb.
  destruct (CatchupReq.seqNoEnd req <? CatchupReq.seqNoStart req); [done|].
  destruct (CatchupReq.catchupTill req <? CatchupReq.seqNoEnd req); [done|].
  destruct (size ledger <? CatchupReq.catchupTill req); [done|]. simpl.
  by destruct (consistency_proof _ _ _).
Qed.

Lemma sends_nothing w : w = mkWorld (seeder w) (outbox w ++ []).
Proof. destruct w. simpl. by rewrite app_nil_r. Qed.

(** X1: whatever the message, [process_ledger_status] leaves the
    service object as it is and keeps what was sent before; it adds at
    most one call of [send_to], addressed to the sender, without a
    splitter, and never a [CatchupRep]. *)
Theorem process_ledger_status_frame w status frm :
  exists extra,
    (process_ledger_status hashToStr build_ledger_status status frm w).2
      = mkWorld (seeder w) (outbox w ++ extra) /\
    (length extra <= 1)%nat /\
    Forall
      (fun s =>
         sent_to s = frm /\ sent_splitter s = None /\
         forall rep, sent_message s <> MsgCatchupRep rep)
      extra.
Proof.
  rewrite process_ledger_status_cases.
  assert (Hnone : exists extra,
             w = mkWorld (seeder w) (outbox w ++ extra) /\
             (length extra <= 1)%nat /\
             Forall
               (fun s : Sent Txn =>
                  sent_to s = frm /\ sent_splitter s = None /\
                  forall rep, sent_message s <> MsgCatchupRep rep)
               extra).
  { exists []. split_and!; [apply sends_nothing | simpl; lia | constructor]. }
  assert (Hone : forall m : Message Txn,
             (forall rep, m <> MsgCatchupRep rep) ->
             exists extra,
               sends w (mkSent m frm None)
                 = mkWorld (seeder w) (outbox w ++ extra) /\
               (length extra <= 1)%nat /\
               Forall
                 (fun s : Sent Txn =>
                    sent_to s = frm /\ sent_splitter s = None /\
                    forall rep, sent_message s <> MsgCatchupRep rep)
                 extra).
  { intros m Hm. exists [mkSent m frm None].
    split_and!; [done | simpl; lia | by repeat constructor]. }
  destruct (_ledgers (seeder w) !! LedgerStatus.ledgerId status)
    as [ledger|]; [|exact Hnone].
  destruct (LedgerStatus.txnSeqNo status <? 0); [exact Hnone|].
  destruct (size ledger <=? LedgerStatus.txnSeqNo status).
  { simpl. destruct (_echo_ledger_status_if_up_to_date (seeder w));
      [by apply Hone | exact Hnone]. }
  destruct (_build_consistency_proof _ _ _ _ _) as [cp|[]]; simpl;
    [by apply Hone | exact Hnone..].
Qed.

(** X2: whatever the request, [process_catchup_req] leaves the service
    object as it is and keeps what was sent before; it adds at most one
    call of [send_to], addressed to the sender, whose message is a
    [CatchupRep] of the requested ledger and whose splitter is the one
    bound to that ledger and to the request's [catchupTill]. *)
Theorem process_catchup_req_frame w req frm :
  exists extra,
    (process_catchup_req hashToStr req frm w).2
      = mkWorld (seeder w) (outbox w ++ extra) /\
    (length extra <= 1)%nat /\
    Forall
      (fun s =>
         sent_to s = frm /\
         exists rep ledger,
           sent_message s = MsgCatchupRep rep /\
           CatchupRep.ledgerId rep = CatchupReq.ledgerId req /\
           _ledgers (seeder w) !! CatchupReq.ledgerId req = Some ledger /\
           sent_splitter s
             = Some (_make_splitter_for_catchup_rep hashToStr ledger
                       (CatchupReq.catchupTill req)))
      extra.
Proof.
  rewrite process_catchup_req_cases.
  destruct (_ledgers (seeder w) !! CatchupReq.ledgerId req) as [ledger|] eqn:Hreg;
    [|exists []; split_and!; [apply sends_nothing | simpl; lia | constructor]].
  destruct (_ || _ || _);
    [exists []; split_and!; [apply sends_nothing | simpl; lia | constructor]|].
  destruct (consistency_proof _ _ _) as [proof|e]; simpl;
    [|exists []; split_and!; [apply sends_nothing | simpl; lia | constructor]].
  eexists [_]. split_and!; [done | simpl; lia |].
  apply Forall_cons. split; [|constructor]. simpl. split; [done|].
  eexists _, ledger. by split_and!.
Qed.

(** X3: no [ValueError] leaves [process_ledger_status], whatever the
    tree does; and when another exception leaves it, nothing has been
    sent. *)
Theorem process_ledger_status_swallows_value_error w status frm :
  (process_ledger_status hashToStr build_ledger_status status frm w).1
    <> Raise ValueError /\
  forall e,
    (process_ledger_status hashToStr build_ledger_status status frm w).1
      = Raise e ->
    (process_ledger_status hashToStr build_ledger_status status frm w).2 = w.
Proof.
  rewrite process_ledger_status_cases.
  destruct (_ledgers (seeder w) !! LedgerStatus.ledgerId status)
    as [ledger|]; [|done].
  destruct (LedgerStatus.txnSeqNo status <? 0); [done|].
  destruct (size ledger <=? LedgerStatus.txnSeqNo status); [done|].
  destruct (_build_consistency_proof _ _ _ _ _) as [cp|[]]; done.
Qed.

(** X4: [process_catchup_req] has no handler of its own: when the
    request passes the validation and the tree raises on the proof
    request, that exception, be it a [ValueError], leaves the handler
    and nothing is sent. *)
Theorem process_catchup_req_lets_engine_fault_escape w req frm ledger e :
  _ledgers (seeder w) !! CatchupReq.ledgerId req = Some ledger ->
  CatchupReq.seqNoStart req <= CatchupReq.seqNoEnd req ->
  CatchupReq.seqNoEnd req <= CatchupReq.catchupTill req ->
  CatchupReq.catchupTill req <= size ledger ->
  consistency_proof (tree ledger) (CatchupReq.seqNoEnd req)
    (CatchupReq.catchupTill req) = Raise e ->
  process_catchup_req hashToStr req frm w = (Raise e, w).
Proof.
  intros Hreg Hse Het Hts Hp.
  rewrite process_catchup_req_cases, Hreg, Hp.
  by decide_comparisons.
Qed.

(** X5: when every registered ledger has a tree that keeps its
    contract, no message whatsoever makes a handler raise. *)
Theorem handlers_do_not_raise w message frm :
  (forall ledger_id ledger,
     _ledgers (seeder w) !! ledger_id = Some ledger -> engine_total ledger) ->
  (dispatch hashToStr build_ledger_status message frm w).1 = Ok tt.
Proof.
  intros Htot. destruct message as [status|req]; simpl.
  - rewrite process_ledger_status_cases.
    destruct (_ledgers (seeder w) !! LedgerStatus.ledgerId status)
      as [ledger|] eqn:Hreg; [|done].
    destruct (Z.ltb_spec (LedgerStatus.txnSeqNo status) 0); [done|].
    destruct (Z.leb_spec (size ledger) (LedgerStatus.txnSeqNo status)); [done|].
    destruct (_build_consistency_proof_total _ _ hashToStr (seeder w)
                (LedgerStatus.ledgerId status) ledger
                (LedgerStatus.txnSeqNo status) (size ledger) Hreg
                (Htot _ _ Hreg))
      as (cp & h & _ & -> & _); [lia..|done].
  - rewrite process_catchup_req_cases.
    destruct (_ledgers (seeder w) !! CatchupReq.ledgerId req)
      as [ledger|] eqn:Hreg; [|done].
    destruct (Z.ltb_spec (CatchupReq.seqNoEnd req) (CatchupReq.seqNoStart req));
      [done|].
    destruct (Z.ltb_spec (CatchupReq.catchupTill req) (CatchupReq.seqNoEnd req));
      [done|].
    destruct (Z.ltb_spec (size ledger) (CatchupReq.catchupTill req)); [done|].
    simpl.
    destruct (Htot _ _ Hreg (CatchupReq.seqNoEnd req)
                (CatchupReq.catchupTill req)) as ((p & ->)%is_ok_true & _);
      [lia..|done].
Qed.

(** The whole answer of [_build_consistency_proof] once the range
    checks are passed, from the answers of the tree. *)
Lemma _build_consistency_proof_value this ledger_id ledger seq_no_start seq_no_end
    (old_root new_root : Hash) (proof : list Hash) :
  _ledgers this !! ledger_id = Some ledger ->
  seq_no_start <= seq_no_end -> seq_no_end <= size ledger ->
  merkle_tree_hash (tree ledger) 0 seq_no_end = Ok new_root ->
  (seq_no_start <> 0 ->
   consistency_proof (tree ledger) seq_no_start seq_no_end = Ok proof /\
   merkle_tree_hash (tree ledger) 0 seq_no_start = Ok old_root) ->
  _build_consistency_proof hashToStr this ledger_id seq_no_start seq_no_end
  = Ok (ConsistencyProof.mk ledger_id seq_no_start seq_no_end
          (default (0, 0)
             (three_phase_key_for_txn_seq_no (_provider this) ledger_id
                seq_no_end)).1
          (default (0, 0)
             (three_phase_key_for_txn_seq_no (_provider this) ledger_id
                seq_no_end)).2
          (hashToStr
             (if seq_no_start =? 0 then root_hash (tree ledger) else old_root))
          (hashToStr new_root)
          (if seq_no_start =? 0 then [hashToStr (root_hash (tree ledger))]
           else hashToStr <$> proof)).
Proof.
  intros Hreg Hse Hes Hnew Hold.
  unfold _build_consistency_proof, _make_consistency_proof.
  rewrite Hreg. simpl. decide_comparisons.
  - simpl. rewrite Hnew. simpl. by destruct (default (0, 0) _).
  - destruct (Hold ltac:(done)) as [-> ->]. simpl. rewrite Hnew. simpl.
    by destruct (default (0, 0) _).
Qed.

(** X6: a [ConsistencyProof] is built whenever the range checks are
    passed and the tree keeps its contract, and it carries the
    three-phase key the provider knows for [(ledger_id, seq_no_end)],
    or [(0, 0)] when the provider knows none. *)
Theorem built_proof_carries_three_phase_key this ledger_id ledger
    seq_no_start seq_no_end :
  _ledgers this !! ledger_id = Some ledger ->
  seq_no_start <= seq_no_end -> seq_no_end <= size ledger ->
  engine_total ledger ->
  exists cons_proof,
    _build_consistency_proof hashToStr this ledger_id seq_no_start seq_no_end
      = Ok cons_proof /\
    (ConsistencyProof.viewNo cons_proof, ConsistencyProof.ppSeqNo cons_proof)
      = match three_phase_key_for_txn_seq_no (_provider this) ledger_id
                seq_no_end with
        | Some three_pc_key => three_pc_key
        | None => (0, 0)
        end.
Proof.
  intros Hreg Hse Hes Htot.
  destruct (Htot seq_no_start seq_no_end Hse Hes)
    as ((proof & Hp)%is_ok_true & (new_root & Hn)%is_ok_true).
  destruct (Htot seq_no_start seq_no_start) as (_ & (old_root & Ho)%is_ok_true);
    [lia..|].
  eexists. split.
  { by apply (_build_consistency_proof_value this ledger_id ledger seq_no_start
                seq_no_end old_root new_root proof). }
  simpl. by destruct (three_phase_key_for_txn_seq_no _ _ _) as [[]|].
Qed.

(** X7: from a start other than 0 the built proof has
    [oldMerkleRoot] the serialized hash of the prefix [seq_no_start],
    [newMerkleRoot] that of the prefix [seq_no_end], and [hashes] the
    serialized [tree.consistency_proof(seq_no_start, seq_no_end)]. *)
Theorem built_proof_from_nonzero_start this ledger_id ledger
    seq_no_start seq_no_end (old_root new_root : Hash) (proof : list Hash) :
  _ledgers this !! ledger_id = Some ledger ->
  seq_no_start <> 0 ->
  seq_no_start <= seq_no_end -> seq_no_end <= size ledger ->
  consistency_proof (tree ledger) seq_no_start seq_no_end = Ok proof ->
  merkle_tree_hash (tree ledger) 0 seq_no_start = Ok old_root ->
  merkle_tree_hash (tree ledger) 0 seq_no_end = Ok new_root ->
  exists cons_proof,
    _build_consistency_proof hashToStr this ledger_id seq_no_start seq_no_end
      = Ok cons_proof /\
    ConsistencyProof.ledgerId cons_proof = ledger_id /\
    ConsistencyProof.seqNoStart cons_proof = seq_no_start /\
    ConsistencyProof.seqNoEnd cons_proof = seq_no_end /\
    ConsistencyProof.oldMerkleRoot cons_proof = hashToStr old_root /\
    ConsistencyProof.newMerkleRoot cons_proof = hashToStr new_root /\
    ConsistencyProof.hashes cons_proof = hashToStr <$> proof.
Proof.
  intros Hreg Hnz Hse Hes Hp Ho Hn.
  eexists. split.
  { by apply (_build_consistency_proof_value this ledger_id ledger seq_no_start
                seq_no_end old_root new_root proof). }
  simpl. by destruct (Z.eqb_spec seq_no_start 0).
Qed.

(** X8: [_build_consistency_proof] raises [KeyError] on a ledger id
    that is not registered, before any range check; with trees that
    keep their contract it raises [KeyError] in no other case. *)
Theorem build_raises_key_error_iff_unregistered this ledger_id
    seq_no_start seq_no_end :
  (forall ledger, _ledgers this !! ledger_id = Some ledger -> engine_total ledger) ->
  raises KeyError
    (_build_consistency_proof hashToStr this ledger_id seq_no_start seq_no_end)
  <-> _ledgers this !! ledger_id = None.
Proof.
  intros Htot. unfold raises. split.
  - destruct (_ledgers this !! ledger_id) as [ledger|] eqn:Hreg; [|done].
    intros Hr. exfalso.
    destruct (Z.lt_ge_cases seq_no_end seq_no_start).
    { rewrite (_build_consistency_proof_rejects _ _ hashToStr this ledger_id
                 ledger) in Hr by (done || lia). done. }
    destruct (Z.lt_ge_cases (size ledger) seq_no_end).
    { rewrite (_build_consistency_proof_rejects _ _ hashToStr this ledger_id
                 ledger) in Hr by (done || lia). done. }
    destruct (_build_consistency_proof_total _ _ hashToStr this ledger_id ledger
                seq_no_start seq_no_end Hreg (Htot _ eq_refl))
      as (cp & h & _ & Hb & _); [lia..|].
    congruence.
  - intros Hreg. unfold _build_consistency_proof. by rewrite Hreg.
Qed.

(** [_build_consistency_proof] reads the ledgers and the provider of the
    service, not its flag. *)
Lemma _build_consistency_proof_ignores_flag this1 this2 ledger_id
    seq_no_start seq_no_end :
  _provider this1 = _provider this2 ->
  _ledgers this1 = _ledgers this2 ->
  _build_consistency_proof hashToStr this1 ledger_id seq_no_start seq_no_end
  = _build_consistency_proof hashToStr this2 ledger_id seq_no_start seq_no_end.
Proof.
  destruct this1, this2. simpl. intros -> ->. reflexivity.
Qed.

(** X9: two services with the same provider and the same ledgers, one
    echoing and the other not, answer alike (same result, same messages
    sent) every [CatchupReq] and every [LedgerStatus] but the one of a
    sender that is up to date on a registered ledger. *)
Theorem variants_differ_only_when_up_to_date this1 this2
    (sent : list (Sent Txn)) message frm :
  _provider this1 = _provider this2 ->
  _ledgers this1 = _ledgers this2 ->
  (forall status ledger,
     message = InLedgerStatus status ->
     _ledgers this1 !! LedgerStatus.ledgerId status = Some ledger ->
     LedgerStatus.txnSeqNo status < size ledger) ->
  (dispatch hashToStr build_ledger_status message frm (mkWorld this1 sent)).1
  = (dispatch hashToStr build_ledger_status message frm (mkWorld this2 sent)).1 /\
  outbox
    (dispatch hashToStr build_ledger_status message frm (mkWorld this1 sent)).2
  = outbox
      (dispatch hashToStr build_ledger_status message frm (mkWorld this2 sent)).2.
Proof.
  intros Hp Hl Hbehind. destruct message as [status|req]; simpl.
  - rewrite !process_ledger_status_cases. simpl. rewrite <- Hl.
    destruct (_ledgers this1 !! LedgerStatus.ledgerId status)
      as [ledger|] eqn:Hreg; [|done].
    specialize (Hbehind status ledger eq_refl Hreg).
    destruct (LedgerStatus.txnSeqNo status <? 0); [done|].
    destruct (Z.leb_spec (size ledger) (LedgerStatus.txnSeqNo status)); [lia|].
    rewrite (_build_consistency_proof_ignores_flag this1 this2) by done.
    destruct (_build_consistency_proof _ _ _ _ _) as [cp|[]]; done.
  - rewrite !process_catchup_req_cases. simpl. rewrite <- Hl, <- Hp.
    destruct (_ledgers this1 !! CatchupReq.ledgerId req) as [ledger|]; [|done].
    destruct (_ || _ || _); [done|].
    by destruct (consistency_proof _ _ _).
Qed.

(** X10: a service just constructed, of either variant, knows no
    ledger: it drops every message. *)
Theorem new_service_drops_every_message (provider : CatchupDataProvider Txn)
    (sent : list (Sent Txn)) message frm :
  dispatch hashToStr build_ledger_status message frm
    (mkWorld (ClientSeederService provider) sent)
  = (Ok tt, mkWorld (ClientSeederService provider) sent) /\
  dispatch hashToStr build_ledger_status message frm
    (mkWorld (NodeSeederService provider) sent)
  = (Ok tt, mkWorld (NodeSeederService provider) sent).
Proof.
  destruct message as [status|req]; simpl;
    rewrite ?process_ledger_status_cases, ?process_catchup_req_cases; simpl;
    by rewrite !lookup_empty.
Qed.

(** X11: [add_ledger] registers the ledger under its id: a message
    naming that id finds it, a message naming another id finds what it
    found before, a second registration under the id replaces the first,
    and the provider and the flag stay. *)
Theorem add_ledger_registers this ledger_id ledger :
  (forall (R : Type) (H : HasLedgerId R) (req : R),
     ledgerId_of req = ledger_id ->
     _get_ledger_and_id (add_ledger ledger_id ledger this) req
     = (ledger_id, Some ledger)) /\
  (forall (R : Type) (H : HasLedgerId R) (req : R),
     ledgerId_of req <> ledger_id ->
     _get_ledger_and_id (add_ledger ledger_id ledger this) req
     = _get_ledger_and_id this req) /\
  (forall ledger',
     add_ledger ledger_id ledger' (add_ledger ledger_id ledger this)
     = add_ledger ledger_id ledger' this) /\
  _provider (add_ledger ledger_id ledger this) = _provider this /\
  _echo_ledger_status_if_up_to_date (add_ledger ledger_id ledger this)
  = _echo_ledger_status_if_up_to_date this.
Proof.
  split_and!; [| | |done..].
  - intros R H req <-. unfold _get_ledger_and_id, add_ledger. simpl.
    by rewrite lookup_insert_eq.
  - intros R H req Hne. unfold _get_ledger_and_id, add_ledger. simpl.
    by rewrite lookup_insert_ne.
  - intros ledger'. unfold add_ledger. simpl. by rewrite insert_insert_eq.
Qed.

End HandlerProperties.

(** ** The dictionaries of a reply, whatever the ledger yields *)

Section ReplyContainers.

Context {V : Type}.
Implicit Types (d l : list (Z * V)) (k : Z) (v : V).

Lemma dict_set_keys k v d k' :
  k' ∈ (dict_set k v d).*1 <-> k' = k \/ k' ∈ d.*1.
Proof.
  induction d as [|[k0 v0] d IH]; simpl.
  - rewrite list_elem_of_singleton, elem_of_nil. tauto.
  - destruct (Z.eqb_spec k k0) as [->|Hne]; simpl.
    + rewrite !elem_of_cons. tauto.
    + rewrite !elem_of_cons, IH. tauto.
Qed.

Lemma dict_set_items k v d x :
  x ∈ dict_set k v d -> x = (k, v) \/ x ∈ d.
Proof.
  induction d as [|[k0 v0] d IH]; simpl.
  - rewrite list_elem_of_singleton. tauto.
  - destruct (Z.eqb_spec k k0) as [->|Hne]; rewrite !elem_of_cons; tauto.
Qed.

Lemma sd_insert_keys k v d k' :
  k' ∈ (sd_insert k v d).*1 <-> k' = k \/ k' ∈ d.*1.
Proof.
  induction d as [|[k0 v0] d IH]; simpl.
  - rewrite list_elem_of_singleton, elem_of_nil. tauto.
  - destruct (Z.ltb_spec k k0); simpl; [rewrite !elem_of_cons; tauto|].
    destruct (Z.eqb_spec k k0) as [->|Hne]; simpl.
    + rewrite !elem_of_cons. tauto.
    + rewrite !elem_of_cons, IH. tauto.
Qed.

Lemma sd_insert_items k v d x :
  x ∈ sd_insert k v d -> x = (k, v) \/ x ∈ d.
Proof.
  induction d as [|[k0 v0] d IH]; simpl.
  - rewrite list_elem_of_singleton. tauto.
  - destruct (Z.ltb_spec k k0); [rewrite !elem_of_cons; tauto|].
    destruct (Z.eqb_spec k k0) as [->|Hne]; rewrite !elem_of_cons; tauto.
Qed.

Lemma sd_insert_ascending k v d :
  keys_ascending d -> keys_ascending (sd_insert k v d).
Proof.
  unfold keys_ascending.
  induction d as [|[k0 v0] d IH]; simpl; intros Hs.
  - repeat constructor.
  - apply StronglySorted_cons in Hs as [Hk0 Hs].
    destruct (Z.ltb_spec k k0).
    + simpl. apply StronglySorted_cons. split.
      * constructor; [done|]. eapply Forall_impl; [exact Hk0|].
        simpl. intros; lia.
      * by apply StronglySorted_cons.
    + destruct (Z.eqb_spec k k0) as [->|Hne]; simpl.
      * by apply StronglySorted_cons.
      * apply StronglySorted_cons. split; [|by apply IH].
        apply Forall_forall. intros k' [->|Hin]%sd_insert_keys; [lia|].
        rewrite Forall_forall in Hk0. by apply Hk0.
Qed.

Lemma fold_sd_insert_ascending_any l d :
  keys_ascending d ->
  keys_ascending (fold_left (fun acc kv => sd_insert kv.1 kv.2 acc) l d).
Proof.
  revert d. induction l as [|[k v] l IH]; intros d Hs; simpl; [done|].
  by apply IH, sd_insert_ascending.
Qed.

Lemma fold_sd_insert_keys l d k :
  k ∈ (fold_left (fun acc kv => sd_insert kv.1 kv.2 acc) l d).*1
  <-> k ∈ d.*1 \/ k ∈ l.*1.
Proof.
  revert d. induction l as [|[k0 v0] l IH]; intros d; simpl.
  - rewrite elem_of_nil. tauto.
  - rewrite IH, sd_insert_keys, elem_of_cons. tauto.
Qed.

Lemma fold_sd_insert_items l d x :
  x ∈ fold_left (fun acc kv => sd_insert kv.1 kv.2 acc) l d ->
  x ∈ d \/ x ∈ l.
Proof.
  revert d. induction l as [|[k0 v0] l IH]; intros d; simpl; [tauto|].
  intros [[->|?]%sd_insert_items|?]%IH; rewrite ?elem_of_cons; tauto.
Qed.

(** A [SortedDict] has ascending keys whatever items it was made of,
    and holds exactly their keys. *)
Lemma mkSortedDict_keys_ascending l : keys_ascending (mkSortedDict l).
Proof. apply fold_sd_insert_ascending_any. constructor. Qed.

Lemma mkSortedDict_keys l k : k ∈ (mkSortedDict l).*1 <-> k ∈ l.*1.
Proof.
  unfold mkSortedDict. rewrite fold_sd_insert_keys. simpl.
  rewrite elem_of_nil. tauto.
Qed.

Lemma mkSortedDict_items l x : x ∈ mkSortedDict l -> x ∈ l.
Proof.
  unfold mkSortedDict. intros [?%elem_of_nil|?]%fold_sd_insert_items; done.
Qed.

Lemma last_seqZ (m n : Z) : 0 < n -> last (seqZ m n) = Some (m + n - 1).
Proof.
  intros Hn. rewrite <- (Z2Nat.id n) by lia.
  destruct (Z.to_nat n) as [|i] eqn:Hi; [lia|].
  rewrite seqZ_S, last_snoc. f_equal. lia.
Qed.

End ReplyContainers.

(** ** Further properties of the reply and of its splitter *)

Section ReplyProperties.

Variables Hash Txn : Type.
Variable hashToStr : Hash -> string.

Implicit Types (w : World Hash Txn) (ledger : Ledger Hash Txn) (frm : string).
Implicit Types (provider : CatchupDataProvider Txn).

Lemma fold_dict_set_keys provider (pairs d : list (Z * Txn)) k :
  k ∈ (fold_left
         (fun txns '(seq_no, txn) =>
            dict_set seq_no (update_txn_with_extra_data provider txn) txns)
         pairs d).*1
  <-> k ∈ d.*1 \/ k ∈ pairs.*1.
Proof.
  revert d. induction pairs as [|[k0 t0] pairs IH]; intros d; simpl.
  - rewrite elem_of_nil. tauto.
  - rewrite IH, dict_set_keys, elem_of_cons. tauto.
Qed.

Lemma fold_dict_set_items provider (pairs d : list (Z * Txn)) x :
  x ∈ fold_left
        (fun txns '(seq_no, txn) =>
           dict_set seq_no (update_txn_with_extra_data provider txn) txns)
        pairs d ->
  x ∈ d \/
  exists txn, (x.1, txn) ∈ pairs /\ x.2 = update_txn_with_extra_data provider txn.
Proof.
  revert d. induction pairs as [|[k0 t0] pairs IH]; intros d; simpl; [tauto|].
  intros [[->|?]%dict_set_items|(txn & ? & ?)]%IH.
  - right. exists t0. split; [apply list_elem_of_here | done].
  - by left.
  - right. exists txn. split; [by apply list_elem_of_further | done].
Qed.

(** X12: the reply to a request that passes the validation has
    strictly ascending keys whatever [ledger.getAllTxn] yields, in
    whatever order and with whatever repetitions; its keys are exactly
    the sequence numbers yielded, and each of its values is the
    decorated transaction of a pair yielded under that key. *)
Theorem reply_holds_the_yielded_sequence_numbers w req frm ledger
    (proof : list Hash) :
  _ledgers (seeder w) !! CatchupReq.ledgerId req = Some ledger ->
  CatchupReq.seqNoStart req <= CatchupReq.seqNoEnd req ->
  CatchupReq.seqNoEnd req <= CatchupReq.catchupTill req ->
  CatchupReq.catchupTill req <= size ledger ->
  consistency_proof (tree ledger) (CatchupReq.seqNoEnd req)
    (CatchupReq.catchupTill req) = Ok proof ->
  exists rep,
    process_catchup_req hashToStr req frm w
      = (Ok tt,
         sends w
           (mkSent (MsgCatchupRep rep) frm
              (Some (_make_splitter_for_catchup_rep hashToStr ledger
                       (CatchupReq.catchupTill req))))) /\
    keys_ascending (CatchupRep.txns rep) /\
    (forall k,
       k ∈ (CatchupRep.txns rep).*1
       <-> k ∈ (getAllTxn ledger (CatchupReq.seqNoStart req)
                  (CatchupReq.seqNoEnd req)).*1) /\
    (forall k v,
       (k, v) ∈ CatchupRep.txns rep ->
       exists txn,
         (k, txn) ∈ getAllTxn ledger (CatchupReq.seqNoStart req)
                      (CatchupReq.seqNoEnd req) /\
         v = update_txn_with_extra_data (_provider (seeder w)) txn).
Proof.
  intros Hreg Hse Het Hts Hp. eexists. split.
  { by apply (process_catchup_req_valid _ _ hashToStr w req frm ledger proof). }
  cbn [CatchupRep.txns]. split_and!.
  - apply mkSortedDict_keys_ascending.
  - intros k. rewrite mkSortedDict_keys. unfold collect_txns.
    rewrite fold_dict_set_keys. simpl. rewrite elem_of_nil. tauto.
  - intros k v Hin%mkSortedDict_items. unfold collect_txns in Hin.
    apply fold_dict_set_items in Hin as [?%elem_of_nil|Hin]; done.
Qed.


(** X14: when the tree raises on one of the two proof requests of
    [_split], first the left one, then the right one, the splitter
    raises that exception and returns no message. *)
Theorem splitter_lets_engine_fault_escape ledger (initial_seq_no : Z)
    (message : CatchupRep.t Txn) (left_last right_last : Z * Txn) e :
  let txns := CatchupRep.txns message in
  (2 <= length txns)%nat ->
  last (take (length txns / 2) txns) = Some left_last ->
  last (drop (length txns / 2) txns) = Some right_last ->
  consistency_proof (tree ledger) left_last.1 initial_seq_no = Raise e \/
  (is_ok (consistency_proof (tree ledger) left_last.1 initial_seq_no) = true /\
   consistency_proof (tree ledger) right_last.1 initial_seq_no = Raise e) ->
  _make_splitter_for_catchup_rep hashToStr ledger initial_seq_no message
    = Raise e.
Proof.
  intros txns Hn Hl Hr He.
  destruct (_split_two_or_more _ _ hashToStr ledger initial_seq_no message Hn)
    as (ll & rl & Hl' & Hr' & ->).
  fold txns in Hl', Hr'. rewrite Hl in Hl'. rewrite Hr in Hr'.
  injection Hl' as <-. injection Hr' as <-.
  unfold _make_consistency_proof.
  destruct He as [->|[(p & ->)%is_ok_true ->]]; done.
Qed.

(** The reply to a request on a ledger that yields the requested range
    in ascending order. *)
Lemma process_catchup_req_range w req frm ledger (stored : Z -> Txn)
    (proof : list Hash) :
  _ledgers (seeder w) !! CatchupReq.ledgerId req = Some ledger ->
  CatchupReq.seqNoStart req <= CatchupReq.seqNoEnd req ->
  CatchupReq.seqNoEnd req <= CatchupReq.catchupTill req ->
  CatchupReq.catchupTill req <= size ledger ->
  getAllTxn ledger (CatchupReq.seqNoStart req) (CatchupReq.seqNoEnd req)
    = (fun i => (i, stored i))
      <$> seqZ (CatchupReq.seqNoStart req)
            (CatchupReq.seqNoEnd req - CatchupReq.seqNoStart req + 1) ->
  consistency_proof (tree ledger) (CatchupReq.seqNoEnd req)
    (CatchupReq.catchupTill req) = Ok proof ->
  process_catchup_req hashToStr req frm w
  = (Ok tt,
     sends w
       (mkSent
          (MsgCatchupRep
             (CatchupRep.mk (CatchupReq.ledgerId req)
                ((fun i =>
                    (i, update_txn_with_extra_data (_provider (seeder w))
                          (stored i)))
                 <$> seqZ (CatchupReq.seqNoStart req)
                       (CatchupReq.seqNoEnd req - CatchupReq.seqNoStart req + 1))
                (hashToStr <$> proof)))
          frm
          (Some (_make_splitter_for_catchup_rep hashToStr ledger
                   (CatchupReq.catchupTill req))))).
Proof.
  intros Hreg Hse Het Hts Hall Hp.
  rewrite (process_catchup_req_valid _ _ hashToStr w req frm ledger proof)
    by done.
  rewrite Hall, collect_txns_ascending by apply range_keys_ascending.
  rewrite <- list_fmap_compose.
  change (prod_map id (update_txn_with_extra_data (_provider (seeder w)))
            ∘ (fun i => (i, stored i)))
    with (fun i => (i, update_txn_with_extra_data (_provider (seeder w)) (stored i))).
  by rewrite mkSortedDict_ascending by apply range_keys_ascending.
Qed.

(** X15: the splitter sent along with a reply of two or more
    transactions splits that very reply: the two halves hold its
    transactions, and the right half carries the proof the reply
    carried, its last sequence number being the reply's. *)
Theorem reply_is_split_by_its_own_splitter w req frm ledger (stored : Z -> Txn) :
  _ledgers (seeder w) !! CatchupReq.ledgerId req = Some ledger ->
  CatchupReq.seqNoStart req < CatchupReq.seqNoEnd req ->
  CatchupReq.seqNoEnd req <= CatchupReq.catchupTill req ->
  CatchupReq.catchupTill req <= size ledger ->
  getAllTxn ledger (CatchupReq.seqNoStart req) (CatchupReq.seqNoEnd req)
    = (fun i => (i, stored i))
      <$> seqZ (CatchupReq.seqNoStart req)
            (CatchupReq.seqNoEnd req - CatchupReq.seqNoStart req + 1) ->
  engine_total ledger ->
  exists rep splitter left_rep right_rep,
    process_catchup_req hashToStr req frm w
      = (Ok tt, sends w (mkSent (MsgCatchupRep rep) frm (Some splitter))) /\
    splitter rep = Ok (Some (left_rep, right_rep)) /\
    CatchupRep.txns left_rep ++ CatchupRep.txns right_rep = CatchupRep.txns rep /\
    CatchupRep.consProof right_rep = CatchupRep.consProof rep.
Proof.
  intros Hreg Hse Het Hts Hall Htot.
  set (a := CatchupReq.seqNoStart req) in *.
  set (b := CatchupReq.seqNoEnd req) in *.
  set (T := CatchupReq.catchupTill req) in *.
  destruct (Htot b T Het Hts) as ((proof & Hp)%is_ok_true & _).
  set (txns := (fun i => (i, update_txn_with_extra_data (_provider (seeder w))
                               (stored i))) <$> seqZ a (b - a + 1)).
  set (rep := CatchupRep.mk (CatchupReq.ledgerId req) txns (hashToStr <$> proof)).
  assert (Hn : (2 <= length (CatchupRep.txns rep))%nat).
  { simpl. unfold txns. rewrite length_fmap, length_seqZ. lia. }
  assert (Hs : keys_ascending (CatchupRep.txns rep))
    by apply range_keys_ascending.
  assert (Hav : proofs_available ledger T (CatchupRep.txns rep)).
  { apply (engine_total_proofs_available _ _ ledger T); [done..|].
    apply Forall_forall. intros kv (i & -> & Hi%elem_of_seqZ)%list_elem_of_fmap.
    simpl. lia. }
  destruct (_split_ascending _ _ hashToStr ledger T rep Hn Hs Hav)
    as (ll & rl & lp & rp & _ & Hr & _ & Hrp & Hsplit).
  exists rep, (_make_splitter_for_catchup_rep hashToStr ledger T).
  eexists _, _. split.
  { apply (process_catchup_req_range w req frm ledger stored proof);
      try done. fold a b. lia. }
  split; [exact Hsplit|]. cbn [CatchupRep.txns CatchupRep.consProof].
  split; [apply take_drop|].
  assert (Hlast : last txns = Some rl).
  { rewrite <- (take_drop (length txns / 2) txns), last_app.
    change (CatchupRep.txns rep) with txns in Hr. by rewrite Hr. }
  unfold txns in Hlast. rewrite fmap_last, last_seqZ in Hlast by lia.
  simpl in Hlast. injection Hlast as <-. simpl in Hrp.
  replace (a + (b - a + 1) - 1) with b in Hrp by lia.
  rewrite Hp in Hrp. injection Hrp as <-. reflexivity.
Qed.

(** X16: the reply to a request for a single sequence number holds one
    transaction, and the splitter sent along with it answers [None] on
    it: such a reply cannot be made smaller. *)
Theorem single_transaction_reply_cannot_be_split w req frm ledger
    (txn : Txn) (proof : list Hash) :
  _ledgers (seeder w) !! CatchupReq.ledgerId req = Some ledger ->
  CatchupReq.seqNoStart req = CatchupReq.seqNoEnd req ->
  CatchupReq.seqNoEnd req <= CatchupReq.catchupTill req ->
  CatchupReq.catchupTill req <= size ledger ->
  getAllTxn ledger (CatchupReq.seqNoStart req) (CatchupReq.seqNoEnd req)
    = [(CatchupReq.seqNoStart req, txn)] ->
  consistency_proof (tree ledger) (CatchupReq.seqNoEnd req)
    (CatchupReq.catchupTill req) = Ok proof ->
  exists rep splitter,
    process_catchup_req hashToStr req frm w
      = (Ok tt, sends w (mkSent (MsgCatchupRep rep) frm (Some splitter))) /\
    CatchupRep.txns rep
      = [(CatchupReq.seqNoStart req,
          update_txn_with_extra_data (_provider (seeder w)) txn)] /\
    splitter rep = Ok None.
Proof.
  intros Hreg Hse Het Hts Hall Hp.
  eexists _, _. split.
  { apply (process_catchup_req_valid _ _ hashToStr w req frm ledger proof);
      (done || lia). }
  rewrite Hall. split; reflexivity.
Qed.

End ReplyProperties.

(** ** Properties of the request handler utilities *)

Section UtilsProperties.

Variable sha256_digest : string -> string.
Variable deserialize : string -> Result pyval.
Variables STEWARD ROLE : string.

Lemma py_eq_str_true v s : py_eq_str v s = true <-> v = PyStr s.
Proof.
  destruct v; simpl; try (split; [discriminate | done]).
  rewrite String.eqb_eq. split; [by intros -> | by intros [= ->]].
Qed.

(** [get_nym_details], by what the state holds under the key of the
    nym. *)
Lemma get_nym_details_cases state nym is_committed :
  get_nym_details sha256_digest deserialize state nym is_committed
  = match State_get state (sha256_digest nym) is_committed with
    | None => Ok (PyObject [])
    | Some data => if String.eqb data "" then Ok (PyObject []) else deserialize data
    end.
Proof. reflexivity. Qed.

(** X17: [is_steward] answers [True] exactly when the state holds,
    under the SHA-256 digest of the nym and for the asked commitment,
    data that are not empty and deserialize to a non-empty dictionary
    whose [ROLE] entry is the string [STEWARD]. *)
Theorem is_steward_iff_role_recorded state nym is_committed :
  is_steward sha256_digest deserialize STEWARD ROLE state nym is_committed
    = Ok true
  <-> exists data items,
        State_get state (nym_to_state_key sha256_digest nym) is_committed
          = Some data /\
        data <> "" /\
        deserialize data = Ok (PyObject items) /\
        items <> [] /\
        object_lookup ROLE items = Some (PyStr STEWARD).
Proof.
  unfold is_steward, get_role, nym_to_state_key.
  rewrite get_nym_details_cases.
  destruct (State_get state (sha256_digest nym) is_committed) as [data|];
    simpl; [|split; [discriminate | by intros (? & ? & ? & _)]].
  destruct (String.eqb_spec data "") as [->|Hne]; simpl.
  { split; [discriminate | intros (? & ? & [= <-] & ? & _); congruence]. }
  destruct (deserialize data) as [v|e] eqn:Hd; simpl; last first.
  { split; [discriminate | intros (? & ? & [= <-] & _ & ? & _); congruence]. }
  split.
  - destruct v as [| | | | |items]; cbn -[object_lookup];
      try (by repeat case_match).
    destruct items as [|item items]; cbn -[object_lookup]; [discriminate|].
    destruct (object_lookup ROLE (item :: items)) as [role|] eqn:Hrole;
      cbn; intros [= Heq%py_eq_str_true]; try done.
    subst role. exists data, (item :: items). by split_and!.
  - intros (? & items & [= <-] & _ & Hd' & Hne' & Hrole).
    rewrite Hd in Hd'. injection Hd' as ->.
    destruct items as [|item items]; [done|]. cbn -[object_lookup].
    f_equal. apply py_eq_str_true. by rewrite Hrole.
Qed.

(** X18: for a nym the state holds nothing for, [None] or empty data,
    [get_nym_details] and [get_role] answer the empty dictionary and
    [is_steward] answers [False]; the deserializer is not called, so
    none of the three raises. *)
Theorem unknown_nym_is_no_steward state nym is_committed :
  State_get state (nym_to_state_key sha256_digest nym) is_committed = None \/
  State_get state (nym_to_state_key sha256_digest nym) is_committed = Some "" ->
  get_nym_details sha256_digest deserialize state nym is_committed
    = Ok (PyObject []) /\
  get_role sha256_digest deserialize ROLE state nym is_committed
    = Ok (PyObject []) /\
  is_steward sha256_digest deserialize STEWARD ROLE state nym is_committed
    = Ok false.
Proof.
  unfold is_steward, get_role, nym_to_state_key.
  rewrite get_nym_details_cases. by intros [-> | ->].
Qed.

(** X19: when the record of the nym deserializes to a non-empty
    dictionary, [get_role] answers its [ROLE] entry, and [None], not the
    empty dictionary, when it has none; in that last case [is_steward]
    answers [False]. *)
Theorem get_role_reads_the_role_entry state nym is_committed data item items :
  State_get state (nym_to_state_key sha256_digest nym) is_committed = Some data ->
  data <> "" ->
  deserialize data = Ok (PyObject (item :: items)) ->
  get_role sha256_digest deserialize ROLE state nym is_committed
    = Ok (match object_lookup ROLE (item :: items) with
          | Some role => role
          | None => PyNone
          end) /\
  (object_lookup ROLE (item :: items) = None ->
   is_steward sha256_digest deserialize STEWARD ROLE state nym is_committed
     = Ok false).
Proof.
  intros Hget Hne Hd.
  unfold is_steward, get_role, nym_to_state_key in *.
  rewrite get_nym_details_cases, Hget.
  destruct (String.eqb_spec data "") as [?|_]; [done|].
  rewrite Hd. cbn [rbind truthy negb py_get]. split; [done|].
  by intros ->.
Qed.

(** X20: when the record deserializes to something that is true and is
    not a dictionary, [get_role] fails on its [get], and [is_steward]
    with it; when the deserializer raises, its exception leaves all
    three functions. *)
Theorem malformed_record_makes_get_role_raise state nym is_committed data :
  State_get state (nym_to_state_key sha256_digest nym) is_committed = Some data ->
  data <> "" ->
  (forall v,
     deserialize data = Ok v -> truthy v = true ->
     (forall items, v <> PyObject items) ->
     get_role sha256_digest deserialize ROLE state nym is_committed
       = Raise OtherError /\
     is_steward sha256_digest deserialize STEWARD ROLE state nym is_committed
       = Raise OtherError) /\
  (forall e,
     deserialize data = Raise e ->
     get_nym_details sha256_digest deserialize state nym is_committed
       = Raise e /\
     get_role sha256_digest deserialize ROLE state nym is_committed
       = Raise e /\
     is_steward sha256_digest deserialize STEWARD ROLE state nym is_committed
       = Raise e).
Proof.
  intros Hget Hne.
  unfold is_steward, get_role, nym_to_state_key in *.
  rewrite get_nym_details_cases, Hget.
  destruct (String.eqb_spec data "") as [?|_]; [done|].
  split.
  - intros v -> Ht Hnd. cbn [rbind]. rewrite Ht. cbn [negb].
    destruct v; try done. by destruct (Hnd items).
  - by intros e ->.
Qed.

End UtilsProperties.

(** ** The further properties on concrete input *)

Lemma demo_node_contract ledger_id (l : Ledger Demo.Hash Demo.Txn) :
  _ledgers Demo.node !! ledger_id = Some l -> engine_total l.
Proof.
  unfold Demo.node, add_ledger. simpl.
  intros [[_ <-]|[_ Hl]]%lookup_insert_Some; [apply demo_engine_total|].
  by rewrite lookup_empty in Hl.
Qed.

Lemma process_ledger_status_swallows_value_error_witness :
  (process_ledger_status Demo.hex Demo.own_status (Demo.status 1 3) "Beta"
     (Demo.start_of DemoFaults.broken_node)).1 = Raise KeyError /\
  (process_ledger_status Demo.hex Demo.own_status (Demo.status 1 3) "Beta"
     (Demo.start_of DemoFaults.broken_node)).2
  = Demo.start_of DemoFaults.broken_node.
Proof.
  assert (He : (process_ledger_status Demo.hex Demo.own_status
                  (Demo.status 1 3) "Beta"
                  (Demo.start_of DemoFaults.broken_node)).1 = Raise KeyError)
    by reflexivity.
  split; [exact He|].
  exact (proj2 (process_ledger_status_swallows_value_error _ _ Demo.hex
                  Demo.own_status (Demo.start_of DemoFaults.broken_node)
                  (Demo.status 1 3) "Beta") KeyError He).
Defined.

Lemma process_catchup_req_lets_engine_fault_escape_witness :
  _ledgers Demo.faulty_node !! 1 = Some Demo.faulty_ledger /\
  4 <= 6 /\ 6 <= 10 /\ 10 <= size Demo.faulty_ledger /\
  consistency_proof (tree Demo.faulty_ledger) 6 10 = Raise ValueError /\
  process_catchup_req Demo.hex (CatchupReq.mk 1 4 6 10) "Beta"
    (Demo.start_of Demo.faulty_node)
  = (Raise ValueError, Demo.start_of Demo.faulty_node).
Proof.
  assert (Hreg : _ledgers Demo.faulty_node !! 1 = Some Demo.faulty_ledger)
    by apply demo_registered.
  assert (Hse : 4 <= 6) by lia.
  assert (Het : 6 <= 10) by lia.
  assert (Hts : 10 <= size Demo.faulty_ledger) by (vm_compute; discriminate).
  assert (Hp : consistency_proof (tree Demo.faulty_ledger) 6 10
               = Raise ValueError) by reflexivity.
  do 5 (split; [assumption|]).
  exact (process_catchup_req_lets_engine_fault_escape _ _ Demo.hex
           (Demo.start_of Demo.faulty_node) (CatchupReq.mk 1 4 6 10) "Beta"
           Demo.faulty_ledger ValueError Hreg Hse Het Hts Hp).
Defined.

Lemma handlers_do_not_raise_witness :
  (forall ledger_id l,
     _ledgers Demo.node !! ledger_id = Some l -> engine_total l) /\
  (dispatch Demo.hex Demo.own_status (InLedgerStatus (Demo.status 1 3)) "Beta"
     (Demo.start_of Demo.node)).1 = Ok tt.
Proof.
  split; [exact demo_node_contract|].
  exact (handlers_do_not_raise _ _ Demo.hex Demo.own_status
           (Demo.start_of Demo.node) (InLedgerStatus (Demo.status 1 3)) "Beta"
           demo_node_contract).
Defined.

Lemma built_proof_carries_three_phase_key_witness :
  _ledgers Demo.node !! 1 = Some Demo.ledger /\
  3 <= 10 /\ 10 <= size Demo.ledger /\ engine_total Demo.ledger /\
  exists cons_proof,
    _build_consistency_proof Demo.hex Demo.node 1 3 10 = Ok cons_proof /\
    (ConsistencyProof.viewNo cons_proof, ConsistencyProof.ppSeqNo cons_proof)
      = (2, 7).
Proof.
  assert (Hreg : _ledgers Demo.node !! 1 = Some Demo.ledger)
    by apply demo_registered.
  assert (Hse : 3 <= 10) by lia.
  assert (Hes : 10 <= size Demo.ledger) by (vm_compute; discriminate).
  do 3 (split; [assumption|]). split; [exact demo_engine_total|].
  exact (built_proof_carries_three_phase_key _ _ Demo.hex Demo.node 1
           Demo.ledger 3 10 Hreg Hse Hes demo_engine_total).
Defined.

Lemma built_proof_from_nonzero_start_witness :
  _ledgers Demo.node !! 1 = Some Demo.ledger /\
  3 <> 0 /\ 3 <= 10 /\ 10 <= size Demo.ledger /\
  consistency_proof (tree Demo.ledger) 3 10 = Ok [Demo.digest 3 10] /\
  merkle_tree_hash (tree Demo.ledger) 0 3 = Ok (Demo.digest 0 3) /\
  merkle_tree_hash (tree Demo.ledger) 0 10 = Ok (Demo.digest 0 10) /\
  exists cons_proof,
    _build_consistency_proof Demo.hex Demo.node 1 3 10 = Ok cons_proof /\
    ConsistencyProof.oldMerkleRoot cons_proof = "0003ab" /\
    ConsistencyProof.newMerkleRoot cons_proof = "000aab" /\
    ConsistencyProof.hashes cons_proof = ["030aab"].
Proof.
  assert (Hreg : _ledgers Demo.node !! 1 = Some Demo.ledger)
    by apply demo_registered.
  assert (Hnz : 3 <> 0) by lia.
  assert (Hse : 3 <= 10) by lia.
  assert (Hes : 10 <= size Demo.ledger) by (vm_compute; discriminate).
  assert (Hp : consistency_proof (tree Demo.ledger) 3 10 = Ok [Demo.digest 3 10])
    by reflexivity.
  assert (Ho : merkle_tree_hash (tree Demo.ledger) 0 3 = Ok (Demo.digest 0 3))
    by reflexivity.
  assert (Hn : merkle_tree_hash (tree Demo.ledger) 0 10 = Ok (Demo.digest 0 10))
    by reflexivity.
  do 7 (split; [assumption|]).
  destruct (built_proof_from_nonzero_start _ _ Demo.hex Demo.node 1 Demo.ledger
              3 10 (Demo.digest 0 3) (Demo.digest 0 10) [Demo.digest 3 10]
              Hreg Hnz Hse Hes Hp Ho Hn)
    as (cp & Hb & _ & _ & _ & Hold & Hnew & Hh).
  exists cp. split; [exact Hb|]. split; [exact Hold|].
  split; [exact Hnew | exact Hh].
Defined.

Lemma build_raises_key_error_iff_unregistered_witness :
  (forall l, _ledgers Demo.node !! 2 = Some l -> engine_total l) /\
  (raises KeyError (_build_consistency_proof Demo.hex Demo.node 2 3 10)
   <-> _ledgers Demo.node !! 2 = None).
Proof.
  split; [exact (demo_node_contract 2)|].
  exact (build_raises_key_error_iff_unregistered _ _ Demo.hex Demo.node 2 3 10
           (demo_node_contract 2)).
Defined.

Lemma variants_differ_only_when_up_to_date_witness :
  _provider Demo.client = _provider Demo.node /\
  _ledgers Demo.client = _ledgers Demo.node /\
  (dispatch Demo.hex Demo.own_status (InLedgerStatus (Demo.status 1 3)) "Beta"
     (mkWorld Demo.client [])).1
  = (dispatch Demo.hex Demo.own_status (InLedgerStatus (Demo.status 1 3)) "Beta"
       (mkWorld Demo.node [])).1 /\
  outbox
    (dispatch Demo.hex Demo.own_status (InLedgerStatus (Demo.status 1 3)) "Beta"
       (mkWorld Demo.client [])).2
  = outbox
      (dispatch Demo.hex Demo.own_status (InLedgerStatus (Demo.status 1 3))
         "Beta" (mkWorld Demo.node [])).2.
Proof.
  assert (Hp : _provider Demo.client = _provider Demo.node) by reflexivity.
  assert (Hl : _ledgers Demo.client = _ledgers Demo.node) by reflexivity.
  do 2 (split; [assumption|]).
  refine (variants_differ_only_when_up_to_date _ _ Demo.hex Demo.own_status
            Demo.client Demo.node [] (InLedgerStatus (Demo.status 1 3)) "Beta"
            Hp Hl _).
  intros status l [= <-] Hreg.
  change (_ledgers Demo.client !! 1 = Some l) in Hreg.
  unfold Demo.client in Hreg. rewrite demo_registered in Hreg.
  injection Hreg as <-. vm_compute. reflexivity.
Defined.

Lemma add_ledger_registers_witness :
  _get_ledger_and_id
    (add_ledger 1 Demo.faulty_ledger (ClientSeederService Demo.provider))
    (Demo.status 1 3)
  = (1, Some Demo.faulty_ledger) /\
  _get_ledger_and_id (add_ledger 2 Demo.faulty_ledger Demo.node)
    (CatchupReq.mk 1 4 6 10)
  = _get_ledger_and_id Demo.node (CatchupReq.mk 1 4 6 10).
Proof.
  split.
  - exact (proj1 (add_ledger_registers _ _ (ClientSeederService Demo.provider)
                    1 Demo.faulty_ledger)
             LedgerStatus.t _ (Demo.status 1 3) eq_refl).
  - refine (proj1 (proj2 (add_ledger_registers _ _ Demo.node 2
                            Demo.faulty_ledger))
              CatchupReq.t _ (CatchupReq.mk 1 4 6 10) _).
    vm_compute. discriminate.
Defined.

Lemma reply_holds_the_yielded_sequence_numbers_witness :
  _ledgers DemoFaults.shuffled_node !! 1 = Some DemoFaults.shuffled_ledger /\
  4 <= 6 /\ 6 <= 10 /\ 10 <= size DemoFaults.shuffled_ledger /\
  consistency_proof (tree DemoFaults.shuffled_ledger) 6 10
    = Ok [Demo.digest 6 10] /\
  exists rep,
    process_catchup_req Demo.hex (CatchupReq.mk 1 4 6 10) "Beta"
      (Demo.start_of DemoFaults.shuffled_node)
      = (Ok tt,
         sends (Demo.start_of DemoFaults.shuffled_node)
           (mkSent (MsgCatchupRep rep) "Beta"
              (Some (_make_splitter_for_catchup_rep Demo.hex
                       DemoFaults.shuffled_ledger 10)))) /\
    keys_ascending (CatchupRep.txns rep) /\
    (forall k,
       k ∈ (CatchupRep.txns rep).*1
       <-> k ∈ (getAllTxn DemoFaults.shuffled_ledger 4 6).*1).
Proof.
  assert (Hreg : _ledgers DemoFaults.shuffled_node !! 1
                 = Some DemoFaults.shuffled_ledger) by apply demo_registered.
  assert (Hse : 4 <= 6) by lia.
  assert (Het : 6 <= 10) by lia.
  assert (Hts : 10 <= size DemoFaults.shuffled_ledger)
    by (vm_compute; discriminate).
  assert (Hp : consistency_proof (tree DemoFaults.shuffled_ledger) 6 10
               = Ok [Demo.digest 6 10]) by reflexivity.
  do 5 (split; [assumption|]).
  destruct (reply_holds_the_yielded_sequence_numbers _ _ Demo.hex
              (Demo.start_of DemoFaults.shuffled_node) (CatchupReq.mk 1 4 6 10)
              "Beta" DemoFaults.shuffled_ledger [Demo.digest 6 10]
              Hreg Hse Het Hts Hp)
    as (rep & Hsent & Hasc & Hkeys & _).
  exists rep. split; [exact Hsent|]. split; [exact Hasc | exact Hkeys].
Defined.


Lemma splitter_lets_engine_fault_escape_witness :
  (2 <= length (Demo.range 1 10))%nat /\
  last (take 5 (Demo.range 1 10)) = Some (5, "f") /\
  last (drop 5 (Demo.range 1 10)) = Some (10, "k") /\
  consistency_proof (tree DemoFaults.broken_ledger) 5 10 = Raise KeyError /\
  _make_splitter_for_catchup_rep Demo.hex DemoFaults.broken_ledger 10
    (Demo.rep_of 1 10)
  = Raise KeyError.
Proof.
  assert (Hn : (2 <= length (Demo.range 1 10))%nat) by (vm_compute; lia).
  assert (Hl : last (take 5 (Demo.range 1 10)) = Some (5, "f")) by reflexivity.
  assert (Hr : last (drop 5 (Demo.range 1 10)) = Some (10, "k")) by reflexivity.
  assert (He : consistency_proof (tree DemoFaults.broken_ledger) 5 10
               = Raise KeyError) by reflexivity.
  do 4 (split; [assumption|]).
  exact (splitter_lets_engine_fault_escape _ _ Demo.hex DemoFaults.broken_ledger
           10 (Demo.rep_of 1 10) (5, "f") (10, "k") KeyError Hn Hl Hr
           (or_introl He)).
Defined.

Lemma reply_is_split_by_its_own_splitter_witness :
  _ledgers Demo.node !! 1 = Some Demo.ledger /\
  4 < 6 /\ 6 <= 10 /\ 10 <= size Demo.ledger /\
  getAllTxn Demo.ledger 4 6
    = (fun i => (i, Demo.stored i)) <$> seqZ 4 (6 - 4 + 1) /\
  engine_total Demo.ledger /\
  exists rep splitter left_rep right_rep,
    process_catchup_req Demo.hex (CatchupReq.mk 1 4 6 10) "Beta"
      (Demo.start_of Demo.node)
      = (Ok tt,
         sends (Demo.start_of Demo.node)
           (mkSent (MsgCatchupRep rep) "Beta" (Some splitter))) /\
    splitter rep = Ok (Some (left_rep, right_rep)) /\
    CatchupRep.txns left_rep ++ CatchupRep.txns right_rep = CatchupRep.txns rep /\
    CatchupRep.consProof right_rep = CatchupRep.consProof rep.
Proof.
  assert (Hreg : _ledgers Demo.node !! 1 = Some Demo.ledger)
    by apply demo_registered.
  assert (Hse : 4 < 6) by lia.
  assert (Het : 6 <= 10) by lia.
  assert (Hts : 10 <= size Demo.ledger) by (vm_compute; discriminate).
  assert (Hall : getAllTxn Demo.ledger 4 6
                 = (fun i => (i, Demo.stored i)) <$> seqZ 4 (6 - 4 + 1))
    by reflexivity.
  do 5 (split; [assumption|]). split; [exact demo_engine_total|].
  exact (reply_is_split_by_its_own_splitter _ _ Demo.hex
           (Demo.start_of Demo.node) (CatchupReq.mk 1 4 6 10) "Beta"
           Demo.ledger Demo.stored Hreg Hse Het Hts Hall demo_engine_total).
Defined.

Lemma single_transaction_reply_cannot_be_split_witness :
  _ledgers Demo.node !! 1 = Some Demo.ledger /\
  4 = 4 /\ 4 <= 10 /\ 10 <= size Demo.ledger /\
  getAllTxn Demo.ledger 4 4 = [(4, "e")] /\
  consistency_proof (tree Demo.ledger) 4 10 = Ok [Demo.digest 4 10] /\
  exists rep splitter,
    process_catchup_req Demo.hex (CatchupReq.mk 1 4 4 10) "Beta"
      (Demo.start_of Demo.node)
      = (Ok tt,
         sends (Demo.start_of Demo.node)
           (mkSent (MsgCatchupRep rep) "Beta" (Some splitter))) /\
    CatchupRep.txns rep = [(4, "e+")] /\
    splitter rep = Ok None.
Proof.
  assert (Hreg : _ledgers Demo.node !! 1 = Some Demo.ledger)
    by apply demo_registered.
  assert (Hse : 4 = 4) by reflexivity.
  assert (Het : 4 <= 10) by lia.
  assert (Hts : 10 <= size Demo.ledger) by (vm_compute; discriminate).
  assert (Hall : getAllTxn Demo.ledger 4 4 = [(4, "e")]) by reflexivity.
  assert (Hp : consistency_proof (tree Demo.ledger) 4 10 = Ok [Demo.digest 4 10])
    by reflexivity.
  do 6 (split; [assumption|]).
  exact (single_transaction_reply_cannot_be_split _ _ Demo.hex
           (Demo.start_of Demo.node) (CatchupReq.mk 1 4 4 10) "Beta"
           Demo.ledger "e" [Demo.digest 4 10] Hreg Hse Het Hts Hall Hp).
Defined.

Lemma is_steward_iff_role_recorded_witness :
  is_steward DemoState.digest DemoState.deserialize "2" "role" DemoState.state
    "steward1" true = Ok true /\
  exists data items,
    State_get DemoState.state (nym_to_state_key DemoState.digest "steward1") true
      = Some data /\
    data <> "" /\
    DemoState.deserialize data = Ok (PyObject items) /\
    items <> [] /\
    object_lookup "role" items = Some (PyStr "2").
Proof.
  assert (H : is_steward DemoState.digest DemoState.deserialize "2" "role"
                DemoState.state "steward1" true = Ok true) by reflexivity.
  split; [exact H|].
  exact (proj1 (is_steward_iff_role_recorded DemoState.digest
                  DemoState.deserialize "2" "role" DemoState.state
                  "steward1" true) H).
Defined.

Lemma unknown_nym_is_no_steward_witness :
  State_get DemoState.state (nym_to_state_key DemoState.digest "steward2") true
    = None /\
  get_role DemoState.digest DemoState.deserialize "role" DemoState.state
    "steward2" true = Ok (PyObject []) /\
  is_steward DemoState.digest DemoState.deserialize "2" "role" DemoState.state
    "steward2" true = Ok false.
Proof.
  assert (H : State_get DemoState.state
                (nym_to_state_key DemoState.digest "steward2") true = None)
    by reflexivity.
  split; [exact H|].
  exact (proj2 (unknown_nym_is_no_steward DemoState.digest
                  DemoState.deserialize "2" "role" DemoState.state
                  "steward2" true (or_introl H))).
Defined.

Lemma get_role_reads_the_role_entry_witness :
  State_get DemoState.state (nym_to_state_key DemoState.digest "user1") true
    = Some "#user1" /\
  "#user1" <> "" /\
  DemoState.deserialize "#user1" = Ok (PyObject [("verkey", PyStr "~B")]) /\
  get_role DemoState.digest DemoState.deserialize "role" DemoState.state
    "user1" true = Ok PyNone /\
  is_steward DemoState.digest DemoState.deserialize "2" "role" DemoState.state
    "user1" true = Ok false.
Proof.
  assert (Hget : State_get DemoState.state
                   (nym_to_state_key DemoState.digest "user1") true
                 = Some "#user1") by reflexivity.
  assert (Hne : "#user1" <> "") by discriminate.
  assert (Hd : DemoState.deserialize "#user1"
               = Ok (PyObject [("verkey", PyStr "~B")])) by reflexivity.
  do 3 (split; [assumption|]).
  destruct (get_role_reads_the_role_entry DemoState.digest
              DemoState.deserialize "2" "role" DemoState.state "user1" true
              "#user1" ("verkey", PyStr "~B") [] Hget Hne Hd) as [Hrole Hst].
  split; [exact Hrole | exact (Hst eq_refl)].
Defined.

Lemma malformed_record_makes_get_role_raise_witness :
  State_get DemoState.state (nym_to_state_key DemoState.digest "odd") true
    = Some "#odd" /\
  "#odd" <> "" /\
  DemoState.deserialize "#odd" = Ok (PyList [PyInt 1]) /\
  is_steward DemoState.digest DemoState.deserialize "2" "role" DemoState.state
    "odd" true = Raise OtherError /\
  DemoState.deserialize "#garbled" = Raise ValueError /\
  is_steward DemoState.digest DemoState.deserialize "2" "role" DemoState.state
    "garbled" true = Raise ValueError.
Proof.
  assert (Hget : State_get DemoState.state
                   (nym_to_state_key DemoState.digest "odd") true
                 = Some "#odd") by reflexivity.
  assert (Hne : "#odd" <> "") by discriminate.
  assert (Hd : DemoState.deserialize "#odd" = Ok (PyList [PyInt 1]))
    by reflexivity.
  assert (Hg : DemoState.deserialize "#garbled" = Raise ValueError)
    by reflexivity.
  do 3 (split; [assumption|]). split; [|split; [exact Hg|]].
  - refine (proj2 (proj1 (malformed_record_makes_get_role_raise
                            DemoState.digest DemoState.deserialize "2" "role"
                            DemoState.state "odd" true "#odd" Hget Hne)
                     (PyList [PyInt 1]) Hd eq_refl _)).
    intros items. discriminate.
  - refine (proj2 (proj2 (proj2 (malformed_record_makes_get_role_raise
                                   DemoState.digest DemoState.deserialize "2"
                                   "role" DemoState.state "garbled" true
                                   "#garbled" eq_refl _)
                            ValueError Hg))).
    discriminate.
Defined.
